(** * GWpy VET: evaluation of data-quality flags and the veto-flag tab

    A shallow embedding of [gwpy/toolkits/vet/core.py] (the function
    [evaluate_flag]) and of the parts of [gwvet/tabs.py] that build a
    [FlagTab] ([FlagTab.__init__] and [FlagTab.from_ini]).

    Python objects that are mutated in place (trigger tables) live in an
    explicit heap; everything that can raise runs in a small state-and-
    exception monad whose state survives an exception, as side effects do
    in Python. *)

From Stdlib Require Import PrimFloat Ascii String List.
From stdpp Require Import base list strings.

Set Default Proof Using "Type".
Local Open Scope string_scope.
Local Open Scope list_scope.

(** ** Python strings *)

Module PyStr.

(** [str.lower] on a byte string: only 'A'..'Z' change. *)
Definition lower_ascii (c : ascii) : ascii :=
  let n := nat_of_ascii c in
  if (65 <=? n)%nat && (n <=? 90)%nat then ascii_of_nat (n + 32) else c.

Fixpoint lower (s : string) : string :=
  match s with
  | EmptyString => EmptyString
  | String c s' => String (lower_ascii c) (lower s')
  end.

(** [sep.join(parts)] *)
Fixpoint join (sep : string) (parts : list string) : string :=
  match parts with
  | [] => EmptyString
  | [p] => p
  | p :: rest => p ++ sep ++ join sep rest
  end.

Definition hex_digit (n : nat) : ascii :=
  ascii_of_nat (if (n <? 10)%nat then 48 + n else 87 + n).

Fixpoint contains_char (c : ascii) (s : string) : bool :=
  match s with
  | EmptyString => false
  | String c' s' => Ascii.eqb c c' || contains_char c s'
  end.

Definition repr_char (quote c : ascii) : string :=
  let n := nat_of_ascii c in
  if Ascii.eqb c quote || Ascii.eqb c "\"%char
  then String "\"%char (String c EmptyString)
  else if (n =? 9)%nat then "\t"
  else if (n =? 10)%nat then "\n"
  else if (n =? 13)%nat then "\r"
  else if (n <? 32)%nat || (127 <=? n)%nat
  then String "\"%char (String "x"%char
         (String (hex_digit (n / 16)) (String (hex_digit (n mod 16))
            EmptyString)))
  else String c EmptyString.

Fixpoint repr_body (quote : ascii) (s : string) : string :=
  match s with
  | EmptyString => EmptyString
  | String c s' => repr_char quote c ++ repr_body quote s'
  end.

(** [repr(s)] of a byte string: single quotes, unless the string has a
    single quote and no double quote. *)
Definition repr (s : string) : string :=
  let quote :=
    if contains_char "'"%char s && negb (contains_char (ascii_of_nat 34) s)
    then ascii_of_nat 34 else "'"%char in
  String quote (repr_body quote s ++ String quote EmptyString).

Fixpoint lstrip (chars : string) (s : string) : string :=
  match s with
  | EmptyString => EmptyString
  | String c s' => if contains_char c chars then lstrip chars s' else s
  end.

Fixpoint rstrip (chars : string) (s : string) : string :=
  match s with
  | EmptyString => EmptyString
  | String c s' =>
      match rstrip chars s' with
      | EmptyString =>
          if contains_char c chars then EmptyString
          else String c EmptyString
      | r => String c r
      end
  end.

(** [s.strip(chars)] *)
Definition strip (chars : string) (s : string) : string :=
  rstrip chars (lstrip chars s).

(** [s.split(sep)] for a one-character separator. *)
Fixpoint split (sep : ascii) (s : string) : list string :=
  match s with
  | EmptyString => [EmptyString]
  | String c s' =>
      if Ascii.eqb c sep then EmptyString :: split sep s'
      else match split sep s' with
           | [] => [String c EmptyString]
           | p :: ps => String c p :: ps
           end
  end.

(** The characters of [strip('\n ')]. *)
Definition newline_space : string :=
  String (ascii_of_nat 10) (String " "%char EmptyString).

(** [s.replace(old, new)] for a one-character [old]. *)
Fixpoint replace (old : ascii) (new : string) (s : string) : string :=
  match s with
  | EmptyString => EmptyString
  | String c s' =>
      if Ascii.eqb c old then new ++ replace old new s'
      else String c (replace old new s')
  end.

(** Two strings that are equal when the case of the letters 'A'..'Z' and
    'a'..'z' is ignored, character by character. *)
Definition same_letter (c d : ascii) : bool :=
  let a := nat_of_ascii c in
  let b := nat_of_ascii d in
  (a =? b)%nat
  || ((65 <=? a)%nat && (a <=? 90)%nat && (b =? a + 32)%nat)
  || ((65 <=? b)%nat && (b <=? 90)%nat && (a =? b + 32)%nat).

Fixpoint equal_ignoring_case (s t : string) : bool :=
  match s, t with
  | EmptyString, EmptyString => true
  | String c s', String d t' => same_letter c d && equal_ignoring_case s' t'
  | _, _ => false
  end.

End PyStr.

(** ** Segments, flags and trigger tables *)

Definition segment : Type := float * float.
Definition segmentlist : Type := list segment.

(** Modelled from the spec: membership of a scalar in a segment list, which
    belongs to the segments library and is not part of the sources.  A time
    [t] lies in the list when some segment has [start <= t < end]. *)
Definition segment_contains (s : segment) (t : float) : bool :=
  PrimFloat.leb (fst s) t && PrimFloat.ltb t (snd s).

Definition contains (sl : segmentlist) (t : float) : bool :=
  existsb (fun s => segment_contains s t) sl.

Record DataQualityFlag : Type := mkFlag {
  flag_name : option string;
  active : segmentlist;
  known : segmentlist
}.

(** The [flag] argument is a flag or raw active segments. *)
Inductive flag_arg : Type :=
| IsFlag (f : DataQualityFlag)
| RawSegments (sl : segmentlist).

(** A trigger is a table row: named scalar fields. *)
Definition Trigger : Type := list (string * float).

(** A trigger table: column metadata and the rows.  [Table.copy] of the
    table library returns a new table with the same structure and no rows;
    [append] adds a row at the end. *)
Record Table : Type := mkTable {
  columns : list string;
  rows : list Trigger
}.

Definition Table_copy (t : Table) : Table :=
  {| columns := columns t; rows := [] |}.

Definition Table_append (t : Table) (r : Trigger) : Table :=
  {| columns := columns t; rows := rows t ++ [r] |}.

Inductive injection_set : Type :=
| InjectionTable (t : Table)
| InjectionSegments (sl : segmentlist).

(** ** Metrics *)

Record Result : Type := mkResult {
  value : float;
  unit : string;
  result_description : string
}.

Inductive exception : Type :=
| MissingFieldError (field : string)
| UnknownMetricError (name : string)
| MetricError (msg : string)
| InvalidReference (l : nat)
| NoSectionError (section : string)
| NoOptionError (option section : string)
| ValueError (msg : string)
| KeyError (key : string)
| AttributeError (msg : string).

Inductive outcome (A : Type) : Type :=
| Returns (a : A)
| Raises (e : exception).
Arguments Returns {A} a.
Arguments Raises {A} e.

(** The three argument shapes with which [evaluate_flag] calls a metric. *)
Inductive invocation : Type :=
| CallInjections (flag : DataQualityFlag) (injections : option injection_set)
| CallTriggers (flag : DataQualityFlag) (triggers after : option Table)
| CallFlag (flag : DataQualityFlag).

(** Modelled from the spec: the [Metric] class of the [metric] package, which
    is not part of the sources.  A metric has a name, the [needs_triggers]
    capability, a description, and is callable; calling it is a pure
    function of the contents of its arguments and either returns a [Result]
    or raises.  [oid] is the identity of the Python object. *)
Record Metric : Type := mkMetric {
  oid : nat;
  name : string;
  needs_triggers : bool;
  description : string;
  call : invocation -> outcome Result
}.

(** An entry of the [metrics] list: a name or a [Metric] instance. *)
Inductive metric_id : Type :=
| ByName (n : string)
| ByInstance (m : Metric).

(** Key equality of the results dictionary: names by value, instances by
    object identity. *)
Definition metric_id_eqb (a b : metric_id) : bool :=
  match a, b with
  | ByName x, ByName y => String.eqb x y
  | ByInstance m, ByInstance m' => Nat.eqb (oid m) (oid m')
  | _, _ => false
  end.

(** [OrderedDict]: keys in order of first insertion. *)
Definition OrderedDict : Type := list (metric_id * Result).

Fixpoint od_set (d : OrderedDict) (k : metric_id) (v : Result) : OrderedDict :=
  match d with
  | [] => [(k, v)]
  | (k', v') :: d' =>
      if metric_id_eqb k' k then (k', v) :: d' else (k', v') :: od_set d' k v
  end.

Definition od_keys (d : OrderedDict) : list metric_id := map fst d.

Fixpoint od_get (d : OrderedDict) (k : metric_id) : option Result :=
  match d with
  | [] => None
  | (k', v) :: d' => if metric_id_eqb k' k then Some v else od_get d' k
  end.

(** ** The world: heap of tables and the calls made so far *)

Inductive event : Type :=
| EvLookup (name : string)
| EvInvoke (metric : nat) (args : invocation).

Record world : Type := mkWorld {
  heap : list Table;
  trace : list event
}.

Definition M (A : Type) : Type := world -> outcome A * world.

Definition ret {A} (a : A) : M A := fun w => (Returns a, w).

Definition bind {A B} (c : M A) (k : A -> M B) : M B :=
  fun w =>
    match c w with
    | (Returns a, w') => k a w'
    | (Raises e, w') => (Raises e, w')
    end.

Definition raise {A} (e : exception) : M A := fun w => (Raises e, w).

Declare Scope py_scope.
Delimit Scope py_scope with py.
Notation "'do' x <- c ; k" := (bind c (fun x => k))
  (at level 10, x name, c at level 100, k at level 200) : py_scope.
Notation "'run' c ; k" := (bind c (fun _ => k))
  (at level 10, c at level 100, k at level 200) : py_scope.
Local Open Scope py_scope.

Definition emit (e : event) : M () :=
  fun w => (Returns (), {| heap := heap w; trace := trace w ++ [e] |}).

Definition load (l : nat) : M Table :=
  fun w =>
    match heap w !! l with
    | Some t => (Returns t, w)
    | None => (Raises (InvalidReference l), w)
    end.

Definition alloc (t : Table) : M nat :=
  fun w => (Returns (length (heap w)),
            {| heap := heap w ++ [t]; trace := trace w |}).

Definition store (l : nat) (t : Table) : M () :=
  fun w => (Returns (), {| heap := <[l := t]> (heap w); trace := trace w |}).

(** The contents behind an optional reference, as a callee reads them. *)
Definition snapshot (r : option nat) : M (option Table) :=
  match r with
  | None => ret None
  | Some l => do t <- load l; ret (Some t)
  end.

(** ** [evaluate_flag] *)

Section Evaluate.

(** The metric registry behind [get_metric]. *)
Variable get_metric : string -> option Metric.

(** Modelled from the spec: [get_row_value] of the table utilities, which
    are not part of the sources.  It reads the named field of a row; a row
    without the field raises.  The scalar read is carried as the float that
    [float(...)] makes of it. *)
Definition get_row_value (t : Trigger) (column : string) : M float :=
  match List.find (fun kv => String.eqb (fst kv) column) t with
  | Some kv => ret (snd kv)
  | None => raise (MissingFieldError column)
  end.

(** [if not isinstance(flag, DataQualityFlag): flag = DataQualityFlag(active=flag)] *)
Definition as_flag (a : flag_arg) : DataQualityFlag :=
  match a with
  | IsFlag f => f
  | RawSegments sl => {| flag_name := None; active := sl; known := [] |}
  end.

(** [after.append(t)] *)
Definition append (after : nat) (t : Trigger) : M () :=
  do tb <- load after; store after (Table_append tb t).

(** The body of [for t in triggers]. *)
Fixpoint veto_loop (flag : DataQualityFlag) (after : nat)
    (ts : list Trigger) : M () :=
  match ts with
  | [] => ret ()
  | t :: ts' =>
      do v <- get_row_value t "time";
      if contains (active flag) v
      then veto_loop flag after ts'
      else run append after t; veto_loop flag after ts'
  end.

(** Lines 64-71: apply vetoes to triggers. *)
Definition apply_vetoes (flag : DataQualityFlag) (triggers : option nat)
    : M (option nat) :=
  match triggers with
  | Some l =>
      do tb <- load l;
      do after <- alloc (Table_copy tb);
      run veto_loop flag after (rows tb);
      ret (Some after)
  | None => ret None
  end.

(** Lines 76-79. *)
Definition resolve (metric : metric_id) : M Metric :=
  match metric with
  | ByInstance m => ret m
  | ByName n =>
      run emit (EvLookup n);
      match get_metric n with
      | Some m => ret m
      | None => raise (UnknownMetricError n)
      end
  end.

(** Lines 80-85: the arguments the metric is called with. *)
Definition dispatch (_metric : Metric) (flag : DataQualityFlag)
    (triggers after : option Table) (injections : option injection_set)
    : invocation :=
  if String.eqb (PyStr.lower (name _metric)) "safety"
  then CallInjections flag injections
  else if needs_triggers _metric
  then CallTriggers flag triggers after
  else CallFlag flag.

Definition invoke (_metric : Metric) (args : invocation) : M Result :=
  run emit (EvInvoke (oid _metric) args);
  match call _metric args with
  | Returns r => ret r
  | Raises e => raise e
  end.

(** Lines 75-85: [for metric in metrics]. *)
Fixpoint metric_loop (flag : DataQualityFlag) (triggers after : option nat)
    (injections : option injection_set) (metrics : list metric_id)
    (out : OrderedDict) : M OrderedDict :=
  match metrics with
  | [] => ret out
  | metric :: metrics' =>
      do _metric <- resolve metric;
      do tb <- snapshot triggers;
      do af <- snapshot after;
      do r <- invoke _metric (dispatch _metric flag tb af injections);
      metric_loop flag triggers after injections metrics'
        (od_set out metric r)
  end.

Definition evaluate_flag (flag : flag_arg) (triggers : option nat)
    (metrics : list metric_id) (injections : option injection_set)
    : M (OrderedDict * option nat) :=
  let flag := as_flag flag in
  do after <- apply_vetoes flag triggers;
  do out <- metric_loop flag triggers after injections metrics [];
  ret (out, after).

(** The default value of the [metrics] argument. *)
Definition default_metrics : list metric_id := [ByName "deadtime"].

End Evaluate.

(** ** What the veto loop computes *)

Definition time_of (t : Trigger) : option float :=
  match List.find (fun kv => String.eqb (fst kv) "time") t with
  | Some kv => Some (snd kv)
  | None => None
  end.

Definition has_time (t : Trigger) : bool :=
  match time_of t with Some _ => true | None => false end.

(** A trigger is vetoed when its time lies in the active segments. *)
Definition vetoed (flag : DataQualityFlag) (t : Trigger) : bool :=
  match time_of t with
  | Some v => contains (active flag) v
  | None => false
  end.

Definition vetoed_triggers (flag : DataQualityFlag) (ts : list Trigger)
    : list Trigger :=
  List.filter (vetoed flag) ts.

Definition survivors (flag : DataQualityFlag) (ts : list Trigger)
    : list Trigger :=
  List.filter (fun t => negb (vetoed flag t)) ts.

(** The rows appended up to the first trigger without a time, and the
    exception raised there, if any. *)
Fixpoint scan (flag : DataQualityFlag) (ts : list Trigger)
    : list Trigger * option exception :=
  match ts with
  | [] => ([], None)
  | t :: ts' =>
      match time_of t with
      | None => ([], Some (MissingFieldError "time"))
      | Some v =>
          let '(kept, e) := scan flag ts' in
          (if contains (active flag) v then kept else t :: kept, e)
      end
  end.

Definition add_rows (tb : Table) (rs : list Trigger) : Table :=
  {| columns := columns tb; rows := rows tb ++ rs |}.

Definition finish (e : option exception) : outcome () :=
  match e with None => Returns () | Some x => Raises x end.

(** The metric loop on the contents of the two tables, with the calls it
    makes. *)
Section MetricLoopPure.

Variable get_metric : string -> option Metric.

Fixpoint metric_calls (flag : DataQualityFlag) (tb af : option Table)
    (injections : option injection_set) (metrics : list metric_id)
    (out : OrderedDict) : outcome OrderedDict * list event :=
  match metrics with
  | [] => (Returns out, [])
  | metric :: metrics' =>
      let found :=
        match metric with
        | ByInstance m => (Some m, [])
        | ByName n => (get_metric n, [EvLookup n])
        end in
      match found with
      | (None, evs) =>
          (Raises (UnknownMetricError
                     match metric with ByName n => n | _ => EmptyString end), evs)
      | (Some m, evs) =>
          let args := dispatch m flag tb af injections in
          match call m args with
          | Raises e => (Raises e, evs ++ [EvInvoke (oid m) args])
          | Returns r =>
              let '(o, evs') :=
                metric_calls flag tb af injections metrics'
                  (od_set out metric r) in
              (o, evs ++ EvInvoke (oid m) args :: evs')
          end
      end
  end.

End MetricLoopPure.

Definition log (w : world) (evs : list event) : world :=
  {| heap := heap w; trace := trace w ++ evs |}.

Definition with_heap (w : world) (h : list Table) : world :=
  {| heap := h; trace := trace w |}.

(** [points_to h r tb]: the optional reference [r] reads as [tb] in [h]. *)
Definition points_to (h : list Table) (r : option nat) (tb : option Table)
    : Prop :=
  match r with
  | None => tb = None
  | Some l => exists t, h !! l = Some t /\ tb = Some t
  end.

Definition lift_out {A B} (f : A -> B) (o : outcome A) : outcome B :=
  match o with
  | Returns a => Returns (f a)
  | Raises e => Raises e
  end.

(** The table [after] refers to when the call is given the table [tb]. *)
Definition after_table (flag : DataQualityFlag) (tb : Table) : Table :=
  add_rows (Table_copy tb) (fst (scan flag (rows tb))).

(** ** The veto-flag tab ([gwvet/tabs.py]) *)

(** A flag to test: a name, or a 2-tuple [(name, sourcefile)]. *)
Inductive flag_entry : Type :=
| FlagName (n : string)
| FlagFile (n sourcefile : string).

(** [str(flag)]: a string is itself, a tuple prints the [repr] of its items. *)
Definition py_str (f : flag_entry) : string :=
  match f with
  | FlagName n => n
  | FlagFile n src => "(" ++ PyStr.repr n ++ ", " ++ PyStr.repr src ++ ")"
  end.

Record Channel : Type := mkChannel { channel_name : string }.

Inductive pyvalue : Type :=
| PyNum (x : float)
| PyText (s : string)
| PyPair (a b : pyvalue).

Definition obind {A B} (c : outcome A) (k : A -> outcome B) : outcome B :=
  match c with
  | Returns a => k a
  | Raises e => Raises e
  end.

Notation "'let*' x := c 'in' k" := (obind c (fun x => k))
  (at level 10, x name, c at level 100, k at level 200) : py_scope.

(** [try: body  except NoOptionError: handler] *)
Definition except_NoOptionError {A} (body handler : outcome A) : outcome A :=
  match body with
  | Raises (NoOptionError _ _) => handler
  | o => o
  end.

Fixpoint omap_list {A B} (f : A -> outcome B) (l : list A) : outcome (list B) :=
  match l with
  | [] => Returns []
  | a :: l' =>
      let* b := f a in
      let* bs := omap_list f l' in
      Returns (b :: bs)
  end.

(** A parsed configuration: sections of options. *)
Definition ConfigParser : Type := list (string * list (string * string)).

Fixpoint assoc {V} (k : string) (l : list (string * V)) : option V :=
  match l with
  | [] => None
  | (k', v) :: l' => if String.eqb k' k then Some v else assoc k l'
  end.

(** [config.get(section, option)] *)
Definition config_get (config : ConfigParser) (section option : string)
    : outcome string :=
  match assoc section config with
  | None => Raises (NoSectionError section)
  | Some opts =>
      match assoc option opts with
      | None => Raises (NoOptionError option section)
      | Some v => Returns v
      end
  end.

Module FlagTab.

Section Init.

(** What the constructor gets from other modules.  A plot is an object of
    the plotting modules; [Padding] is what [format_padding] makes of the
    padding; [ParentArgs] are the keyword arguments handed on to the parent
    constructor.  Each call can raise. *)
Variable Plot : Type.
Variable Padding : Type.
Variable ParentArgs : Type.

(** The parent constructor, called with the name, the states and the other
    keyword arguments: it keeps the name and gives the tab its plots. *)
Variable parent_init :
  flag_entry -> list string -> ParentArgs -> outcome (list Plot).
Variable get_channel : string -> outcome Channel.
Variable format_padding : list flag_entry -> pyvalue -> outcome Padding.

(** The attributes of a tab.  [name] is the name handed to the parent
    constructor; [layout] is [None] as long as [init_plots] has not set
    it. *)
Record t : Type := mk {
  name : flag_entry;
  flags : list flag_entry;
  segmentfile : option string;
  minseglength : float;
  labels : list string;
  metrics : list metric_id;
  channel : option Channel;
  etg : option string;
  etgformat : option string;
  intersection : bool;
  padding : Padding;
  metaflag : string;
  plots : list Plot;
  layout : option (list nat)
}.

(** Lines 198-290 of [init_plots]: the layout and the plots, built through
    the plotting, channel and trigger modules from the tab and the escaped
    generator name. *)
Variable configure_plots : t -> string -> outcome (list nat * list Plot).

(** [init_plots]: the generator name is escaped first, which raises when
    the tab has no generator. *)
Definition init_plots (self : t) : outcome (list nat * list Plot) :=
  let label := if intersection self then "Intersection" else "Union" in
  match etg self with
  | None =>
      Raises (AttributeError
                "'NoneType' object has no attribute 'replace'")
  | Some e =>
      let etgstr := PyStr.replace "_"%char "\\_" e in
      configure_plots self etgstr
  end.

Definition __init__ (name : flag_entry) (flags : list flag_entry)
    (metrics : list metric_id) (channel : option string)
    (etg format : option string) (intersection : bool)
    (labels : option (list string)) (segmentfile : option string)
    (minseglength : float) (padding : pyvalue) (states : list string)
    (kwargs : ParentArgs) : outcome t :=
  let '(flags, name) :=
    if (length flags =? 0)%nat
    then ([name],
          match name with
          | FlagFile n _ => FlagName n
          | FlagName _ => name
          end)
    else (flags, name) in
  let* parent_plots := parent_init name states kwargs in
  let self_flags := flags in
  let self_labels :=
    match labels with
    | Some (l :: ls) => l :: ls
    | _ => map py_str self_flags
    end in
  (* channel and get_channel(channel) or None *)
  let* self_channel :=
    match channel with
    | None => Returns None
    | Some EmptyString => Returns None
    | Some c => let* ch := get_channel c in Returns (Some ch)
    end in
  let* self_padding := format_padding self_flags padding in
  let self :=
    {| name := name;
       flags := self_flags;
       segmentfile := segmentfile;
       minseglength := minseglength;
       labels := self_labels;
       metrics := metrics;
       channel := self_channel;
       etg := etg;
       etgformat := format;
       intersection := intersection;
       padding := self_padding;
       metaflag := if intersection
                   then PyStr.join "&" (map py_str self_flags)
                   else PyStr.join "|" (map py_str self_flags);
       plots := parent_plots;
       layout := None |} in
  (* configure default plots *)
  if (length (plots self) =? 0)%nat
  then
    let* configured := init_plots self in
    Returns {| name := name;
               flags := self_flags;
               segmentfile := segmentfile;
               minseglength := minseglength;
               labels := self_labels;
               metrics := metrics;
               channel := self_channel;
               etg := etg;
               etgformat := format;
               intersection := intersection;
               padding := self_padding;
               metaflag := metaflag self;
               plots := plots self ++ snd configured;
               layout := Some (fst configured) |}
  else Returns self.

End Init.

Arguments name {Plot Padding} _.
Arguments flags {Plot Padding} _.
Arguments labels {Plot Padding} _.
Arguments etg {Plot Padding} _.
Arguments intersection {Plot Padding} _.
Arguments metaflag {Plot Padding} _.
Arguments plots {Plot Padding} _.
Arguments layout {Plot Padding} _.
Arguments channel {Plot Padding} _.

(** The keyword arguments [from_ini] fills in; an absent key is [None]. *)
Record kwargs : Type := mkKwargs {
  kw_flags : option (list flag_entry);
  kw_segmentfile : option string;
  kw_padding : option (list pyvalue);
  kw_metrics : option (list metric_id);
  kw_labels : option (list string);
  kw_channel : option Channel;
  kw_etg : option string;
  kw_format : option string;
  kw_intersection : option bool
}.

(** [kwargs.setdefault(key, v)] *)
Definition setdefault {A} (old : option A) (v : A) : option A :=
  match old with
  | Some x => Some x
  | None => Some v
  end.

Definition set_flags kw v :=
  {| kw_flags := v; kw_segmentfile := kw_segmentfile kw;
     kw_padding := kw_padding kw; kw_metrics := kw_metrics kw;
     kw_labels := kw_labels kw; kw_channel := kw_channel kw;
     kw_etg := kw_etg kw; kw_format := kw_format kw;
     kw_intersection := kw_intersection kw |}.
Definition set_segmentfile kw v :=
  {| kw_flags := kw_flags kw; kw_segmentfile := v;
     kw_padding := kw_padding kw; kw_metrics := kw_metrics kw;
     kw_labels := kw_labels kw; kw_channel := kw_channel kw;
     kw_etg := kw_etg kw; kw_format := kw_format kw;
     kw_intersection := kw_intersection kw |}.
Definition set_padding kw v :=
  {| kw_flags := kw_flags kw; kw_segmentfile := kw_segmentfile kw;
     kw_padding := v; kw_metrics := kw_metrics kw;
     kw_labels := kw_labels kw; kw_channel := kw_channel kw;
     kw_etg := kw_etg kw; kw_format := kw_format kw;
     kw_intersection := kw_intersection kw |}.
Definition set_metrics kw v :=
  {| kw_flags := kw_flags kw; kw_segmentfile := kw_segmentfile kw;
     kw_padding := kw_padding kw; kw_metrics := v;
     kw_labels := kw_labels kw; kw_channel := kw_channel kw;
     kw_etg := kw_etg kw; kw_format := kw_format kw;
     kw_intersection := kw_intersection kw |}.
Definition set_labels kw v :=
  {| kw_flags := kw_flags kw; kw_segmentfile := kw_segmentfile kw;
     kw_padding := kw_padding kw; kw_metrics := kw_metrics kw;
     kw_labels := v; kw_channel := kw_channel kw;
     kw_etg := kw_etg kw; kw_format := kw_format kw;
     kw_intersection := kw_intersection kw |}.
Definition set_channel kw v :=
  {| kw_flags := kw_flags kw; kw_segmentfile := kw_segmentfile kw;
     kw_padding := kw_padding kw; kw_metrics := kw_metrics kw;
     kw_labels := kw_labels kw; kw_channel := v;
     kw_etg := kw_etg kw; kw_format := kw_format kw;
     kw_intersection := kw_intersection kw |}.
Definition set_etg kw v :=
  {| kw_flags := kw_flags kw; kw_segmentfile := kw_segmentfile kw;
     kw_padding := kw_padding kw; kw_metrics := kw_metrics kw;
     kw_labels := kw_labels kw; kw_channel := kw_channel kw;
     kw_etg := v; kw_format := kw_format kw;
     kw_intersection := kw_intersection kw |}.
Definition set_format kw v :=
  {| kw_flags := kw_flags kw; kw_segmentfile := kw_segmentfile kw;
     kw_padding := kw_padding kw; kw_metrics := kw_metrics kw;
     kw_labels := kw_labels kw; kw_channel := kw_channel kw;
     kw_etg := kw_etg kw; kw_format := v;
     kw_intersection := kw_intersection kw |}.
Definition set_intersection kw v :=
  {| kw_flags := kw_flags kw; kw_segmentfile := kw_segmentfile kw;
     kw_padding := kw_padding kw; kw_metrics := kw_metrics kw;
     kw_labels := kw_labels kw; kw_channel := kw_channel kw;
     kw_etg := kw_etg kw; kw_format := kw_format kw;
     kw_intersection := v |}.

Section FromIni.

(** What [from_ini] calls in other modules: the metric registry, the
    channel table, and [eval] on the text of the padding option. *)
Variable get_metric : string -> option Metric.
Variable get_channel : string -> Channel.
Variable eval : string -> outcome pyvalue.

Definition lookup_metric (n : string) : outcome metric_id :=
  match get_metric n with
  | Some m => Returns (ByInstance m)
  | None => Raises (UnknownMetricError n)
  end.

(** [[f.strip('\n ') for f in text.split(',')]] *)
Definition csv (text : string) : list string :=
  map (PyStr.strip PyStr.newline_space) (PyStr.split ","%char text).

(** Lines 126-163: everything before the flag combine. *)
Definition read_options (config : ConfigParser) (section : string)
    (kw : kwargs) : outcome kwargs :=
  (* get list of flags and source segmentfile *)
  let* text := config_get config section "flags" in
  let kw := set_flags kw (setdefault (kw_flags kw) (map FlagName (csv text))) in
  let* kw :=
    except_NoOptionError
      (let* v := config_get config section "segmentfile" in
       Returns (set_segmentfile kw (setdefault (kw_segmentfile kw) v)))
      (Returns kw) in
  (* get padding *)
  let* kw :=
    except_NoOptionError
      (let* text := config_get config section "padding" in
       let* v := eval text in
       Returns (set_padding kw (setdefault (kw_padding kw) [v])))
      (Returns kw) in
  (* get list of metrics *)
  let* text := config_get config section "metrics" in
  let* ms := omap_list lookup_metric (csv text) in
  let kw := set_metrics kw (setdefault (kw_metrics kw) ms) in
  (* get labels *)
  let* kw :=
    except_NoOptionError
      (let* text := config_get config section "labels" in
       Returns (set_labels kw (setdefault (kw_labels kw) (csv text))))
      (Returns kw) in
  (* get ETG params *)
  match
    (let* v := config_get config section "event-channel" in
     Returns (set_channel kw (setdefault (kw_channel kw) (get_channel v))))
  with
  | Raises (NoOptionError _ _) => Returns kw
  | Raises e => Raises e
  | Returns kw =>
      let* v := config_get config section "event-generator" in
      let kw := set_etg kw (setdefault (kw_etg kw) v) in
      except_NoOptionError
        (let* v := config_get config section "event-format" in
         Returns (set_format kw (setdefault (kw_format kw) v)))
        (Returns kw)
  end.

Definition absent {A} (v : option A) : bool :=
  match v with Some _ => false | None => true end.

(** Lines 165-177: get flag combine; [flags] is [kwargs['flags']]. *)
Definition read_combine (config : ConfigParser) (section : string)
    (flags : list flag_entry) (kw : kwargs) : outcome kwargs :=
  if (1 <? length flags)%nat && absent (kw_intersection kw)
  then
    match config_get config section "combine" with
    | Raises (NoOptionError _ _) =>
        Returns (set_intersection kw (Some false))
    | Raises e => Raises e
    | Returns combine =>
        if String.eqb (PyStr.lower combine) "intersection"
        then Returns (set_intersection kw (Some true))
        else if negb (String.eqb (PyStr.lower combine) "union")
        then Raises (ValueError ("Cannot parse flag combine operator "
                                   ++ PyStr.repr combine))
        else Returns (set_intersection kw (Some false))
    end
  else Returns kw.

(** The keyword arguments [from_ini] hands to the parent's [from_ini],
    which builds the tab from them. *)
Definition from_ini (config : ConfigParser) (section : string)
    (kw : kwargs) : outcome kwargs :=
  let* kw := read_options config section kw in
  match kw_flags kw with
  | Some flags => read_combine config section flags kw
  | None => Raises (KeyError "flags")
  end.

End FromIni.

End FlagTab.

(** ** Notions used to state the properties *)

(** The table of survivors. *)
Definition filtered (flag : DataQualityFlag) (tb : Table) : Table :=
  {| columns := columns tb; rows := survivors flag (rows tb) |}.

(** [resolves gm metric m]: the entry [metric] stands for the metric [m]. *)
Definition resolves (gm : string -> option Metric) (metric : metric_id)
    (m : Metric) : Prop :=
  match metric with
  | ByInstance m' => m' = m
  | ByName n => gm n = Some m
  end.

Definition input_table (w : world) (triggers : option nat) : option Table :=
  match triggers with
  | Some l => heap w !! l
  | None => None
  end.

(** The keys of the results after the identifiers [metrics] have been
    assigned in turn: a key that is already there keeps its place. *)
Definition add_key (ks : list metric_id) (k : metric_id) : list metric_id :=
  if existsb (fun k' => metric_id_eqb k' k) ks then ks else ks ++ [k].

Definition key_order (metrics : list metric_id) : list metric_id :=
  fold_left add_key metrics [].

(** No identifier occurs twice. *)
Fixpoint distinct (metrics : list metric_id) : bool :=
  match metrics with
  | [] => true
  | k :: rest =>
      negb (existsb (fun k' => metric_id_eqb k k') rest) && distinct rest
  end.

(** The names looked up in the registry, and the names among the entries. *)
Fixpoint lookups (evs : list event) : list string :=
  match evs with
  | [] => []
  | EvLookup n :: evs' => n :: lookups evs'
  | EvInvoke _ _ :: evs' => lookups evs'
  end.

Fixpoint names (metrics : list metric_id) : list string :=
  match metrics with
  | [] => []
  | ByName n :: rest => n :: names rest
  | ByInstance _ :: rest => names rest
  end.

(** Two outcomes of [evaluate_flag] are the same: the same exception, or the
    same results and [after] tables with the same contents (two calls never
    return the same object). *)
Definition same_result (r1 r2 : outcome (OrderedDict * option nat) * world)
    : Prop :=
  match fst r1, fst r2 with
  | Raises e1, Raises e2 => e1 = e2
  | Returns (out1, None), Returns (out2, None) => out1 = out2
  | Returns (out1, Some a1), Returns (out2, Some a2) =>
      out1 = out2 /\
      exists ta, heap (snd r1) !! a1 = Some ta /\ heap (snd r2) !! a2 = Some ta
  | _, _ => False
  end.

(** The calls made during a run that started with [n] events logged. *)
Definition new_events (n : nat) (r : outcome (OrderedDict * option nat) * world)
    : list event :=
  drop n (trace (snd r)).

(** The registry lookup an entry of [metrics] causes. *)
Definition lookup_events (metric : metric_id) : list event :=
  match metric with
  | ByName n => [EvLookup n]
  | ByInstance _ => []
  end.

(** The events of a run in which every entry of [metrics] is resolved and
    called once, in the order of the list. *)
Definition expected_events (gm : string -> option Metric)
    (flag : DataQualityFlag) (tb af : option Table)
    (injections : option injection_set) (metrics : list metric_id)
    : list event :=
  flat_map
    (fun metric =>
       lookup_events metric ++
       match metric with
       | ByName n =>
           match gm n with
           | Some m =>
               [EvInvoke (oid m) (dispatch m flag tb af injections)]
           | None => []
           end
       | ByInstance m => [EvInvoke (oid m) (dispatch m flag tb af injections)]
       end)
    metrics.

Definition is_instance (metric : metric_id) : bool :=
  match metric with
  | ByInstance _ => true
  | ByName _ => false
  end.

(** The arguments [args] are those the dispatch rule gives the metric [m]:
    the flag and the injections when its name is "safety" whatever the case
    of the letters; otherwise the flag, the triggers and [after] when it
    needs triggers; otherwise the flag alone. *)
Definition called_as (m : Metric) (flag : DataQualityFlag)
    (triggers after : option Table) (injections : option injection_set)
    (args : invocation) : Prop :=
  (PyStr.equal_ignoring_case (name m) "safety" = true ->
   args = CallInjections flag injections) /\
  (PyStr.equal_ignoring_case (name m) "safety" = false ->
   needs_triggers m = true ->
   args = CallTriggers flag triggers after) /\
  (PyStr.equal_ignoring_case (name m) "safety" = false ->
   needs_triggers m = false ->
   args = CallFlag flag).

(** The combination expression over some names: the first name, then for
    each further name the operator and the name. *)
Definition combination (op : string) (flag_names : list string) : string :=
  match flag_names with
  | [] => EmptyString
  | n :: rest =>
      fold_left (fun acc x => String.append acc (String.append op x)) rest n
  end.

(** The flags a tab tests and the name it goes by, given the name and the
    flags passed to the constructor. *)
Definition tested_flags (name : flag_entry) (flags : list flag_entry)
    : list flag_entry :=
  match flags with
  | [] => [name]
  | _ :: _ => flags
  end.

Definition display_name (name : flag_entry) (flags : list flag_entry)
    : flag_entry :=
  match flags, name with
  | [], FlagFile n _ => FlagName n
  | _, _ => name
  end.

(** ** Worked inputs *)

Module Examples.

Definition trig (time snr : float) : Trigger :=
  [("time", time); ("snr", snr)].

(** Active during [10, 20). *)
Definition flag1 : DataQualityFlag :=
  {| flag_name := Some "H1:DMT-TEST:1";
     active := [(10%float, 20%float)];
     known := [(0%float, 100%float)] |}.

(** Triggers at times 5, 15 and 25. *)
Definition triggers1 : Table :=
  {| columns := ["time"; "snr"];
     rows := [trig 5 8; trig 15 9; trig 25 10] |}.

(** One trigger, inside the active segment. *)
Definition triggers2 : Table :=
  {| columns := ["time"; "snr"]; rows := [trig 12 7] |}.

(** A row without a time. *)
Definition triggers3 : Table :=
  {| columns := ["snr"]; rows := [[("snr", 7%float)]] |}.

Definition deadtime : Metric :=
  {| oid := 1; name := "deadtime"; needs_triggers := false;
     description := "The active duration of a given set of segments";
     call := fun args =>
       match args with
       | CallFlag f =>
           Returns {| value := 10; unit := "%";
                      result_description := "deadtime" |}
       | _ => Raises (MetricError "TypeError")
       end |}.

Definition efficiency : Metric :=
  {| oid := 2; name := "efficiency"; needs_triggers := true;
     description := "The fraction of triggers that are vetoed";
     call := fun args =>
       match args with
       | CallTriggers f (Some before) (Some after) =>
           Returns {| value := match rows after with
                               | [] => 100
                               | _ => 50
                               end;
                      unit := "%";
                      result_description := "efficiency" |}
       | _ => Raises (MetricError "TypeError")
       end |}.

Definition safety : Metric :=
  {| oid := 3; name := "Safety"; needs_triggers := true;
     description := "The number of injections that are vetoed";
     call := fun args =>
       match args with
       | CallInjections f _ =>
           Returns {| value := 0; unit := "injections";
                      result_description := "safety" |}
       | _ => Raises (MetricError "TypeError")
       end |}.

Definition registry (n : string) : option Metric :=
  if String.eqb (PyStr.lower n) "deadtime" then Some deadtime
  else if String.eqb (PyStr.lower n) "efficiency" then Some efficiency
  else if String.eqb (PyStr.lower n) "safety" then Some safety
  else None.

(** The caller's heap: the three tables at addresses 0, 1 and 2. *)
Definition world0 : world :=
  {| heap := [triggers1; triggers2; triggers3]; trace := [] |}.

Definition config1 : ConfigParser :=
  [("tab-veto",
    [("flags", "H1:DMT-A:1, H1:DMT-B:1");
     ("metrics", "deadtime,efficiency");
     ("combine", "Intersection")])].

Definition config2 : ConfigParser :=
  [("tab-veto",
    [("flags", "H1:DMT-A:1, H1:DMT-B:1");
     ("metrics", "deadtime");
     ("combine", "xor")])].

Definition no_kwargs : FlagTab.kwargs :=
  {| FlagTab.kw_flags := None; FlagTab.kw_segmentfile := None;
     FlagTab.kw_padding := None; FlagTab.kw_metrics := None;
     FlagTab.kw_labels := None; FlagTab.kw_channel := None;
     FlagTab.kw_etg := None; FlagTab.kw_format := None;
     FlagTab.kw_intersection := None |}.

Definition no_eval (text : string) : outcome pyvalue :=
  Raises (ValueError text).

(** Raw segments, active during [20, 30). *)
Definition segments2 : segmentlist := [(20%float, 30%float)].

(** An event channel without its generator. *)
Definition config3 : ConfigParser :=
  [("tab-veto",
    [("flags", "H1:DMT-A:1");
     ("metrics", "deadtime");
     ("event-channel", "H1:GDS-CALIB_STRAIN")])].

(** One flag, and a [combine] that names no operator. *)
Definition config4 : ConfigParser :=
  [("tab-veto",
    [("flags", " H1:DMT-A:1 ");
     ("metrics", "deadtime, Efficiency");
     ("labels", "A");
     ("segmentfile", "segments.xml");
     ("combine", "xor");
     ("event-channel", "H1:GDS-CALIB_STRAIN");
     ("event-generator", "omicron")])].

(** A caller who gives the flags, the generator and the combination. *)
Definition some_kwargs : FlagTab.kwargs :=
  {| FlagTab.kw_flags := Some [FlagFile "H1:DMT-X:1" "x.xml"];
     FlagTab.kw_segmentfile := None;
     FlagTab.kw_padding := None; FlagTab.kw_metrics := None;
     FlagTab.kw_labels := Some ["X"]; FlagTab.kw_channel := None;
     FlagTab.kw_etg := Some "kleinewelle"; FlagTab.kw_format := None;
     FlagTab.kw_intersection := Some true |}.

(** What an outcome returned, or [d]. *)
Definition returned {A} (o : outcome A) (d : A) : A :=
  match o with
  | Returns a => a
  | Raises _ => d
  end.

(** Stand-ins for what the constructor calls in other modules: a parent
    constructor that keeps the plots it is given, a channel table that
    knows every name, a padding kept as it is, and default plots made of
    one segment plot. *)
Definition parent_keeps (name : flag_entry) (states : list string)
    (given : list string) : outcome (list string) :=
  Returns given.

Definition channel_named (c : string) : outcome Channel :=
  Returns (mkChannel c).

Definition padding_kept (flags : list flag_entry) (p : pyvalue)
    : outcome pyvalue :=
  Returns p.

Definition segment_plot (self : FlagTab.t string pyvalue) (etgstr : string)
    : outcome (list nat * list string) :=
  Returns ([1; 1], ["segments"]).

Definition no_padding : pyvalue := PyPair (PyNum 0) (PyNum 0).

End Examples.

(** * Lemmas *)

Ltac munfold :=
  unfold bind, ret, raise, emit, load, alloc, store, snapshot, append,
    get_row_value in *; simpl in *.

Lemma log_nil w : log w [] = w.
Proof. destruct w; unfold log; simpl. by rewrite app_nil_r. Qed.

Lemma with_heap_id w : with_heap w (heap w) = w.
Proof. by destruct w. Qed.

Lemma add_rows_nil tb : add_rows tb [] = tb.
Proof. destruct tb; unfold add_rows; simpl. by rewrite app_nil_r. Qed.

Lemma add_rows_cons tb t rs :
  add_rows (Table_append tb t) rs = add_rows tb (t :: rs).
Proof. unfold add_rows, Table_append; simpl. by rewrite <- app_assoc. Qed.

Lemma get_row_value_time t w :
  get_row_value t "time" w =
  match time_of t with
  | Some v => (Returns v, w)
  | None => (Raises (MissingFieldError "time"), w)
  end.
Proof.
  unfold get_row_value, time_of.
  by destruct (List.find _ t).
Qed.

(** The loop writes the surviving rows to [after] and nothing else. *)
Lemma veto_loop_scan flag after ts : forall w tb,
  heap w !! after = Some tb ->
  veto_loop flag after ts w =
    (finish (snd (scan flag ts)),
     with_heap w (<[after := add_rows tb (fst (scan flag ts))]> (heap w))).
Proof.
  induction ts as [|t ts IH]; intros w tb Hl; simpl.
  - rewrite add_rows_nil, list_insert_id by done.
    by rewrite with_heap_id.
  - unfold bind at 1. rewrite get_row_value_time.
    destruct (time_of t) as [v|] eqn:Ht; simpl.
    + destruct (scan flag ts) as [kept e] eqn:Hs; simpl in *.
      destruct (contains (active flag) v).
      * by rewrite (IH w tb Hl).
      * unfold bind at 1. unfold append, bind, load, store. rewrite Hl.
        set (w1 := {| heap := _; trace := _ |}).
        assert (H1 : heap w1 !! after = Some (Table_append tb t)).
        { subst w1; simpl. apply list_lookup_insert_eq.
          by eapply lookup_lt_Some. }
        rewrite (IH w1 _ H1). subst w1; unfold with_heap; simpl.
        by rewrite list_insert_insert_eq, add_rows_cons.
    + rewrite add_rows_nil, list_insert_id by done.
      by rewrite with_heap_id.
Qed.

Lemma scan_complete flag ts :
  forallb has_time ts = true ->
  scan flag ts = (survivors flag ts, None).
Proof.
  induction ts as [|t ts IH]; simpl; [done|].
  unfold has_time at 1, vetoed at 1.
  destruct (time_of t) as [v|]; simpl; [|done].
  intros H. rewrite (IH H).
  by destruct (contains (active flag) v).
Qed.

Lemma snapshot_points_to w r tb :
  points_to (heap w) r tb -> snapshot r w = (Returns tb, w).
Proof.
  destruct r as [l|]; simpl.
  - intros (t & Hl & ->). munfold. by rewrite Hl.
  - by intros ->.
Qed.

(** The metric loop only reads the heap, so it is the pure loop on the
    contents of the two tables. *)
Lemma metric_loop_calls gm flag triggers after inj metrics :
  forall out w tb af,
    points_to (heap w) triggers tb ->
    points_to (heap w) after af ->
    metric_loop gm flag triggers after inj metrics out w =
      (fst (metric_calls gm flag tb af inj metrics out),
       log w (snd (metric_calls gm flag tb af inj metrics out))).
Proof.
  induction metrics as [|metric metrics IH]; intros out w tb af Ht Ha; simpl.
  - by rewrite log_nil.
  - destruct metric as [n|m]; simpl.
    + unfold bind at 1. unfold resolve, bind at 1, emit.
      destruct (gm n) as [m|] eqn:Hn; simpl; [|done].
      set (w1 := {| heap := heap w; trace := trace w ++ [EvLookup n] |}).
      unfold bind at 1. rewrite (snapshot_points_to w1 triggers tb Ht).
      unfold bind at 1. rewrite (snapshot_points_to w1 after af Ha).
      unfold bind at 1, invoke, bind at 1, emit; simpl.
      destruct (call m _) as [r|e] eqn:Hc; simpl.
      * set (w2 := {| heap := heap w; trace := _ |}).
        rewrite (IH _ w2 tb af Ht Ha).
        destruct (metric_calls gm flag tb af inj metrics _) as [o evs].
        simpl. subst w2. unfold log; simpl.
        by rewrite <- !app_assoc.
      * unfold log; simpl. by rewrite <- app_assoc.
    + unfold bind at 1, ret.
      unfold bind at 1. rewrite (snapshot_points_to w triggers tb Ht).
      unfold bind at 1. rewrite (snapshot_points_to w after af Ha).
      unfold bind at 1, invoke, bind at 1, emit; simpl.
      destruct (call m _) as [r|e] eqn:Hc; simpl.
      * set (w2 := {| heap := heap w; trace := _ |}).
        rewrite (IH _ w2 tb af Ht Ha).
        destruct (metric_calls gm flag tb af inj metrics _) as [o evs].
        simpl. subst w2. unfold log; simpl.
        by rewrite <- !app_assoc.
      * done.
Qed.

(** *** [evaluate_flag], case by case *)

Lemma evaluate_flag_absent gm flag metrics inj w :
  evaluate_flag gm flag None metrics inj w =
    (lift_out (fun out => (out, None))
       (fst (metric_calls gm (as_flag flag) None None inj metrics [])),
     log w (snd (metric_calls gm (as_flag flag) None None inj metrics []))).
Proof.
  unfold evaluate_flag; simpl. unfold bind at 1; simpl. unfold bind at 1.
  rewrite (metric_loop_calls gm _ None None inj metrics [] w None None)
    by done.
  by destruct (fst _).
Qed.

Lemma evaluate_flag_dangling gm flag l metrics inj w :
  heap w !! l = None ->
  evaluate_flag gm flag (Some l) metrics inj w = (Raises (InvalidReference l), w).
Proof.
  intros Hl. unfold evaluate_flag; simpl.
  unfold bind at 1, bind at 1, load. by rewrite Hl.
Qed.

Lemma evaluate_flag_present gm flag l metrics inj w tb :
  heap w !! l = Some tb ->
  let f := as_flag flag in
  let af := after_table f tb in
  let w1 := with_heap w (heap w ++ [af]) in
  evaluate_flag gm flag (Some l) metrics inj w =
    match snd (scan f (rows tb)) with
    | Some e => (Raises e, w1)
    | None =>
        (lift_out (fun out => (out, Some (length (heap w))))
           (fst (metric_calls gm f (Some tb) (Some af) inj metrics [])),
         log w1 (snd (metric_calls gm f (Some tb) (Some af) inj metrics [])))
    end.
Proof.
  intros Hl f af w1. unfold evaluate_flag. fold f.
  unfold bind at 1, apply_vetoes, bind at 1, load. rewrite Hl.
  unfold bind at 1, alloc; simpl.
  set (w0 := {| heap := heap w ++ [Table_copy tb]; trace := trace w |}).
  assert (H0 : heap w0 !! length (heap w) = Some (Table_copy tb)).
  { subst w0; simpl. by apply list_lookup_middle. }
  unfold bind at 1. rewrite (veto_loop_scan f _ _ w0 _ H0).
  assert (Hw : with_heap w0
                 (<[length (heap w) :=
                      add_rows (Table_copy tb) (fst (scan f (rows tb)))]>
                    (heap w0)) = w1).
  { subst w0 w1 af; unfold with_heap, after_table; simpl.
    f_equal. rewrite insert_app_r_alt by lia.
    by rewrite Nat.sub_diag. }
  rewrite Hw. destruct (snd (scan f (rows tb))) as [e|]; simpl; [done|].
  unfold bind at 1.
  rewrite (metric_loop_calls gm f (Some l) (Some (length (heap w))) inj
             metrics [] w1 (Some tb) (Some af)).
  - by destruct (metric_calls gm f _ _ inj metrics []) as [[out|e] evs].
  - exists tb. split; [|done]. subst w1; simpl.
    by apply lookup_app_l_Some.
  - exists af. split; [|done]. subst w1; simpl.
    by apply list_lookup_middle.
Qed.

Lemma scan_none flag ts :
  snd (scan flag ts) = None ->
  forallb has_time ts = true /\ fst (scan flag ts) = survivors flag ts.
Proof.
  induction ts as [|t ts IH]; simpl; [done|].
  unfold has_time at 1, vetoed at 1.
  destruct (time_of t) as [v|]; simpl; [|done].
  destruct (scan flag ts) as [kept e]; simpl in *.
  intros ->. destruct (IH eq_refl) as [-> ->].
  by destruct (contains (active flag) v).
Qed.

(** A call that returns, given a table: what it returns and what it did. *)
Lemma evaluate_flag_returns gm flag l metrics inj w tb out after w' :
  heap w !! l = Some tb ->
  evaluate_flag gm flag (Some l) metrics inj w = (Returns (out, after), w') ->
  let f := as_flag flag in
  let af := filtered f tb in
  forallb has_time (rows tb) = true /\
  after = Some (length (heap w)) /\
  fst (metric_calls gm f (Some tb) (Some af) inj metrics []) = Returns out /\
  w' = log (with_heap w (heap w ++ [af]))
         (snd (metric_calls gm f (Some tb) (Some af) inj metrics [])).
Proof.
  intros Hl He f af. rewrite (evaluate_flag_present _ _ _ _ _ _ _ Hl) in He.
  fold f in He.
  destruct (snd (scan f (rows tb))) as [e|] eqn:Hs; [done|].
  destruct (scan_none _ _ Hs) as [Hall Hk].
  assert (Haf : after_table f tb = af).
  { unfold after_table, af, filtered, add_rows. by rewrite Hk. }
  rewrite Haf in He.
  destruct (metric_calls gm f (Some tb) (Some af) inj metrics [])
    as [[o|e] evs]; simpl in *; [|done].
  by inversion He.
Qed.

Lemma filter_sublist {A} (p : A -> bool) (l : list A) :
  sublist (List.filter p l) l.
Proof.
  induction l as [|x l IH]; simpl; [constructor|].
  destruct (p x); by constructor.
Qed.

Lemma filter_split_length {A} (p : A -> bool) (l : list A) :
  length (List.filter p l) + length (List.filter (fun x => negb (p x)) l)
  = length l.
Proof.
  induction l as [|x l IH]; simpl; [done|].
  destruct (p x); simpl; lia.
Qed.

(** With a time in every row, the partition completes: the call returns
    as soon as the metrics do. *)
Lemma evaluate_flag_total gm flag l metrics inj w tb out :
  heap w !! l = Some tb ->
  forallb has_time (rows tb) = true ->
  let f := as_flag flag in
  let af := filtered f tb in
  fst (metric_calls gm f (Some tb) (Some af) inj metrics []) = Returns out ->
  evaluate_flag gm flag (Some l) metrics inj w =
    (Returns (out, Some (length (heap w))),
     log (with_heap w (heap w ++ [af]))
       (snd (metric_calls gm f (Some tb) (Some af) inj metrics []))).
Proof.
  intros Hl Hall f af Ho.
  rewrite (evaluate_flag_present _ _ _ _ _ _ _ Hl). fold f.
  unfold after_table. rewrite (scan_complete f _ Hall). simpl.
  change (add_rows (Table_copy tb) (survivors f (rows tb))) with af.
  by rewrite Ho.
Qed.

(** A returning call, in terms of the contents of the triggers table. *)
Lemma evaluate_flag_returns_all gm flag triggers metrics inj w out after w' :
  evaluate_flag gm flag triggers metrics inj w = (Returns (out, after), w') ->
  let F := as_flag flag in
  let tb := input_table w triggers in
  let af := filtered F <$> tb in
  fst (metric_calls gm F tb af inj metrics []) = Returns out /\
  trace w' = trace w ++ snd (metric_calls gm F tb af inj metrics []) /\
  points_to (heap w') triggers tb /\
  points_to (heap w') after af.
Proof.
  intros He F tb af. subst F tb af. destruct triggers as [l|]; simpl.
  - destruct (heap w !! l) as [tb|] eqn:Hl.
    + destruct (evaluate_flag_returns _ _ _ _ _ _ _ _ _ _ Hl He)
        as (_ & -> & Ho & ->).
      simpl. repeat split; try done.
      * exists tb. split; [|done]. by apply lookup_app_l_Some.
      * exists (filtered (as_flag flag) tb). split; [|done].
        by apply list_lookup_middle.
    + by rewrite (evaluate_flag_dangling _ _ _ _ _ _ Hl) in He.
  - rewrite evaluate_flag_absent in He.
    destruct (metric_calls gm (as_flag flag) None None inj metrics [])
      as [[o|e] evs]; simpl in *; [|done].
    by inversion He.
Qed.

Lemma metric_calls_events gm f tb af inj metrics :
  forall out out',
    fst (metric_calls gm f tb af inj metrics out) = Returns out' ->
    snd (metric_calls gm f tb af inj metrics out)
    = expected_events gm f tb af inj metrics.
Proof.
  induction metrics as [|metric metrics IH]; intros out out'; simpl; [done|].
  destruct metric as [n|m]; simpl.
  - destruct (gm n) as [m|]; simpl; [|done].
    destruct (call m _) as [r|e]; simpl; [|done].
    specialize (IH (od_set out (ByName n) r) out').
    destruct (metric_calls gm f tb af inj metrics _) as [o evs].
    simpl in *. intros Ho. by rewrite (IH Ho).
  - destruct (call m _) as [r|e]; simpl; [|done].
    specialize (IH (od_set out (ByInstance m) r) out').
    destruct (metric_calls gm f tb af inj metrics _) as [o evs].
    simpl in *. intros Ho. by rewrite (IH Ho).
Qed.

(** *** Case folding *)

Lemma ascii_eqb_nat c d :
  Ascii.eqb c d = (nat_of_ascii c =? nat_of_ascii d)%nat.
Proof.
  destruct (Ascii.eqb_spec c d) as [->|Hne].
  - by rewrite Nat.eqb_refl.
  - symmetry. apply Nat.eqb_neq. intros H. apply Hne.
    by rewrite <- (ascii_nat_embedding c), <- (ascii_nat_embedding d), H.
Qed.

Lemma nat_of_lower_ascii c :
  nat_of_ascii (PyStr.lower_ascii c) =
  if (65 <=? nat_of_ascii c)%nat && (nat_of_ascii c <=? 90)%nat
  then nat_of_ascii c + 32 else nat_of_ascii c.
Proof.
  unfold PyStr.lower_ascii.
  destruct ((65 <=? nat_of_ascii c)%nat && (nat_of_ascii c <=? 90)%nat)
    eqn:E; [|done].
  apply andb_true_iff in E as [_ E]. apply Nat.leb_le in E.
  apply nat_ascii_embedding. lia.
Qed.

Lemma lower_ascii_same c d :
  Ascii.eqb (PyStr.lower_ascii c) (PyStr.lower_ascii d)
  = PyStr.same_letter c d.
Proof.
  rewrite ascii_eqb_nat, !nat_of_lower_ascii. unfold PyStr.same_letter.
  cbv zeta. generalize (nat_of_ascii c) (nat_of_ascii d). intros a b.
  repeat match goal with
         | |- context [(?x <=? ?y)%nat] => destruct (Nat.leb_spec x y)
         | |- context [(?x =? ?y)%nat] => destruct (Nat.eqb_spec x y)
         end; simpl in *; try reflexivity; exfalso; lia.
Qed.

(** Comparing the lower-case forms is comparing without regard to case. *)
Lemma lower_equal s t :
  String.eqb (PyStr.lower s) (PyStr.lower t) = PyStr.equal_ignoring_case s t.
Proof.
  revert t. induction s as [|c s IH]; intros [|d t]; simpl; try done.
  rewrite lower_ascii_same, IH. by destruct (PyStr.same_letter c d).
Qed.

Lemma string_append_assoc (a b c : string) :
  String.append (String.append a b) c = String.append a (String.append b c).
Proof.
  induction a as [|x a IH]; [done|].
  change (String x (String.append (String.append a b) c)
          = String x (String.append a (String.append b c))).
  by rewrite IH.
Qed.

(** [join] writes the combination out. *)
Lemma join_combination op l : PyStr.join op l = combination op l.
Proof.
  destruct l as [|n rest]; [done|]. unfold combination.
  assert (H : forall rest n pre,
            String.append pre (PyStr.join op (n :: rest))
            = fold_left (fun acc x => String.append acc (String.append op x))
                rest (String.append pre n)).
  { clear. induction rest as [|m rest IH]; intros n pre; [done|].
    change (PyStr.join op (n :: m :: rest))
      with (String.append n (String.append op (PyStr.join op (m :: rest)))).
    cbn [fold_left].
    rewrite <- (string_append_assoc (String.append pre n) op m).
    rewrite <- (IH m (String.append (String.append pre n) op)).
    by rewrite !string_append_assoc. }
  exact (H rest n EmptyString).
Qed.

(** * The claims *)

(** C1.  When [evaluate_flag] is given a table of triggers and returns,
    [after] refers to a table whose rows are the triggers that are not
    vetoed, in their original order: every trigger of the input is either
    vetoed (its time lies in the active segments) and missing from [after],
    or not vetoed and in [after]; the rows of [after] are a subsequence of
    the input rows, and the two parts add up to the input.  The partition
    itself always completes when every trigger has a time.  With the flag
    active during [10, 20) and triggers at times 5, 15 and 25, [after] holds
    the triggers at 5 and 25. *)
Theorem evaluate_flag_partition :
  (forall gm flag l metrics inj w tb out after w',
     heap w !! l = Some tb ->
     evaluate_flag gm flag (Some l) metrics inj w = (Returns (out, after), w') ->
     let F := as_flag flag in
     exists a ta,
       after = Some a /\ heap w' !! a = Some ta /\
       rows ta = List.filter (fun t => negb (vetoed F t)) (rows tb) /\
       (forall t, In t (rows tb) ->
          exists v, time_of t = Some v /\
            (In t (vetoed_triggers F (rows tb))
             <-> contains (active F) v = true) /\
            ((In t (vetoed_triggers F (rows tb)) /\ ~ In t (rows ta)) \/
             (~ In t (vetoed_triggers F (rows tb)) /\ In t (rows ta)))) /\
       sublist (rows ta) (rows tb) /\
       length (vetoed_triggers F (rows tb)) + length (rows ta)
       = length (rows tb))
  /\
  (forall gm flag l inj w tb,
     heap w !! l = Some tb ->
     forallb has_time (rows tb) = true ->
     exists w',
       evaluate_flag gm flag (Some l) [] inj w
       = (Returns ([], Some (length (heap w))), w') /\
       heap w' !! length (heap w) = Some (filtered (as_flag flag) tb))
  /\
  (exists out w',
     evaluate_flag Examples.registry (IsFlag Examples.flag1) (Some 0)
       default_metrics None Examples.world0 = (Returns (out, Some 3), w') /\
     heap w' !! 3 =
       Some {| columns := ["time"; "snr"];
               rows := [Examples.trig 5 8; Examples.trig 25 10] |}).
Proof.
  split; [|split].
  - intros gm flag l metrics inj w tb out after w' Hl He F.
    destruct (evaluate_flag_returns _ _ _ _ _ _ _ _ _ _ Hl He)
      as (Hall & -> & _ & ->).
    fold F. exists (length (heap w)), (filtered F tb).
    split; [done|]. split.
    { simpl. by apply list_lookup_middle. }
    split; [done|]. split; [|split].
    + intros t Hin.
      rewrite forallb_forall in Hall. specialize (Hall t Hin).
      unfold has_time in Hall.
      destruct (time_of t) as [v|] eqn:Ht; [|done].
      exists v. split; [done|].
      assert (Hv : vetoed F t = contains (active F) v).
      { unfold vetoed. by rewrite Ht. }
      unfold vetoed_triggers, filtered, survivors; simpl.
      rewrite !filter_In, Hv. split.
      * split; [by intros [_ ?]|by intros ?].
      * destruct (contains (active F) v); simpl.
        -- left. split; [done|]. by intros [_ ?].
        -- right. split; [by intros [_ ?]|done].
    + apply filter_sublist.
    + apply filter_split_length.
  - intros gm flag l inj w tb Hl Hall.
    eexists. split.
    + by apply (evaluate_flag_total gm flag l [] inj w tb []).
    + simpl. by apply list_lookup_middle.
  - eexists _, _. split; [vm_compute; reflexivity|]. reflexivity.
Qed.

Lemma evaluate_flag_partition_witness :
  exists a ta,
    Some 3 = Some a /\
    heap (snd (evaluate_flag Examples.registry (IsFlag Examples.flag1)
                 (Some 0) default_metrics None Examples.world0)) !! a
    = Some ta /\
    rows ta = [Examples.trig 5 8; Examples.trig 25 10].
Proof.
  destruct (proj1 evaluate_flag_partition Examples.registry
              (IsFlag Examples.flag1) 0 default_metrics None Examples.world0
              Examples.triggers1
              [(ByName "deadtime", {| value := 10; unit := "%";
                                      result_description := "deadtime" |})]
              (Some 3)
              (snd (evaluate_flag Examples.registry (IsFlag Examples.flag1)
                      (Some 0) default_metrics None Examples.world0))
              eq_refl eq_refl)
    as (a & ta & Ha & Hta & Hrows & _).
  exists a, ta. split; [exact Ha|]. split; [exact Hta|]. exact Hrows.
Defined.

Lemma metric_calls_invocations gm f tb af inj metrics :
  forall out id args,
    In (EvInvoke id args) (snd (metric_calls gm f tb af inj metrics out)) ->
    exists metric m,
      In metric metrics /\ resolves gm metric m /\
      id = oid m /\ args = dispatch m f tb af inj.
Proof.
  induction metrics as [|metric metrics IH]; intros out id args; simpl.
  - intros [].
  - assert (Hstep : forall m evs,
              resolves gm metric m ->
              (forall e, In e evs -> e <> EvInvoke id args) ->
              In (EvInvoke id args)
                (snd match call m (dispatch m f tb af inj) with
                     | Returns r =>
                         let '(o, evs') :=
                           metric_calls gm f tb af inj metrics
                             (od_set out metric r) in
                         (o, evs ++ EvInvoke (oid m) (dispatch m f tb af inj)
                                 :: evs')
                     | Raises e =>
                         (Raises e,
                          evs ++ [EvInvoke (oid m) (dispatch m f tb af inj)])
                     end) ->
              exists metric0 m0,
                (metric = metric0 \/ In metric0 metrics) /\
                resolves gm metric0 m0 /\
                id = oid m0 /\ args = dispatch m0 f tb af inj).
    { intros m evs Hres Hevs.
      destruct (call m _) as [r|e]; simpl.
      - specialize (IH (od_set out metric r) id args).
        destruct (metric_calls gm f tb af inj metrics _) as [o evs'].
        simpl in *. rewrite in_app_iff. intros [Hin|[Heq|Hin]].
        + by destruct (Hevs _ Hin).
        + inversion Heq; subst. exists metric, m. auto.
        + destruct (IH Hin) as (metric0 & m0 & ? & ? & ? & ?).
          exists metric0, m0. auto.
      - rewrite in_app_iff. intros [Hin|[Heq|[]]].
        + by destruct (Hevs _ Hin).
        + inversion Heq; subst. exists metric, m. auto. }
    destruct metric as [n|m]; simpl.
    + destruct (gm n) as [m|] eqn:Hn; simpl.
      * apply (Hstep m [EvLookup n]); [done|]. by intros e [<-|[]].
      * by intros [?|[]].
    + apply (Hstep m []); [done|]. by intros e [].
Qed.

Lemma dispatch_called_as m f tb af inj :
  called_as m f tb af inj (dispatch m f tb af inj).
Proof.
  unfold called_as, dispatch.
  rewrite <- (lower_equal (name m) "safety").
  change (PyStr.lower "safety") with "safety".
  destruct (String.eqb (PyStr.lower (name m)) "safety").
  - split; [done|]. by split.
  - split; [done|]. split; by intros _ ->.
Qed.

Lemma expected_events_called gm f tb af inj metrics metric m :
  In metric metrics -> resolves gm metric m ->
  In (EvInvoke (oid m) (dispatch m f tb af inj))
    (expected_events gm f tb af inj metrics).
Proof.
  intros Hin Hres. unfold expected_events. apply in_flat_map.
  exists metric. split; [done|]. apply in_app_iff. right.
  destruct metric as [n|m']; simpl in *.
  - rewrite Hres. by left.
  - subst m'. by left.
Qed.

(** C2.  A returning call of [evaluate_flag] has called, for every entry of
    [metrics] in turn, the metric the entry stands for, exactly once and
    with the arguments of the dispatch rule: [(flag, injections)] when the
    name is "safety" in any case of the letters, whatever [needs_triggers]
    says; otherwise [(flag, triggers, after=after)] when [needs_triggers]
    is true; otherwise [(flag,)].  And whether the call returns or raises,
    no metric is ever called in another way. *)
Theorem evaluate_flag_dispatch gm flag triggers metrics inj w o w' :
  evaluate_flag gm flag triggers metrics inj w = (o, w') ->
  let F := as_flag flag in
  let tb := input_table w triggers in
  let af := filtered F <$> tb in
  (forall out after,
     o = Returns (out, after) ->
     trace w' = trace w ++ expected_events gm F tb af inj metrics /\
     forall metric m,
       In metric metrics -> resolves gm metric m ->
       exists args,
         In (EvInvoke (oid m) args) (drop (length (trace w)) (trace w')) /\
         called_as m F tb af inj args) /\
  (forall id args,
     In (EvInvoke id args) (trace w') ->
     In (EvInvoke id args) (trace w) \/
     exists metric m,
       In metric metrics /\ resolves gm metric m /\ id = oid m /\
       called_as m F tb af inj args).
Proof.
  intros He F tb af. split.
  - intros out after ->.
    destruct (evaluate_flag_returns_all _ _ _ _ _ _ _ _ _ He)
      as (Ho & Ht & _).
    fold F tb af in Ho, Ht.
    rewrite (metric_calls_events _ _ _ _ _ _ _ _ Ho) in Ht.
    split; [exact Ht|].
    intros metric m Hin Hres. exists (dispatch m F tb af inj).
    split; [|apply dispatch_called_as].
    rewrite Ht, drop_app_length.
    by apply (expected_events_called _ _ _ _ _ _ metric).
  - intros id args Hin.
    assert (Hcalls : In (EvInvoke id args)
                       (snd (metric_calls gm F tb af inj metrics [])) ->
                     exists metric m,
                       In metric metrics /\ resolves gm metric m /\
                       id = oid m /\ called_as m F tb af inj args).
    { intros Hc.
      destruct (metric_calls_invocations _ _ _ _ _ _ _ _ _ Hc)
        as (metric & m & H1 & H2 & H3 & ->).
      exists metric, m. repeat split; try done; apply dispatch_called_as. }
    subst F tb af. destruct triggers as [l|].
    + simpl in *. destruct (heap w !! l) as [tb|] eqn:Hl.
      * rewrite (evaluate_flag_present _ _ _ _ _ _ _ Hl) in He.
        destruct (snd (scan (as_flag flag) (rows tb))) as [e|] eqn:Hs.
        -- inversion He; subst. by left.
        -- destruct (scan_none _ _ Hs) as [_ Hk].
           assert (Haf : after_table (as_flag flag) tb
                         = filtered (as_flag flag) tb).
           { unfold after_table, filtered, add_rows. by rewrite Hk. }
           rewrite Haf in He. inversion He; subst; clear He.
           simpl in Hin. rewrite in_app_iff in Hin.
           destruct Hin as [Hin|Hin]; [by left|]. right. by apply Hcalls.
      * rewrite (evaluate_flag_dangling _ _ _ _ _ _ Hl) in He.
        inversion He; subst. by left.
    + rewrite evaluate_flag_absent in He. inversion He; subst; clear He.
      simpl in Hin. rewrite in_app_iff in Hin.
      destruct Hin as [Hin|Hin]; [by left|]. right. by apply Hcalls.
Qed.

Lemma evaluate_flag_dispatch_witness :
  trace (snd (evaluate_flag Examples.registry (IsFlag Examples.flag1)
                (Some 0)
                [ByName "efficiency"; ByName "safety";
                 ByInstance Examples.deadtime] None Examples.world0))
  = [EvLookup "efficiency";
     EvInvoke 2
       (CallTriggers Examples.flag1 (Some Examples.triggers1)
          (Some {| columns := ["time"; "snr"];
                   rows := [Examples.trig 5 8; Examples.trig 25 10] |}));
     EvLookup "safety";
     EvInvoke 3 (CallInjections Examples.flag1 None);
     EvInvoke 1 (CallFlag Examples.flag1)].
Proof.
  exact (proj1 (proj1 (evaluate_flag_dispatch Examples.registry
                         (IsFlag Examples.flag1) (Some 0)
                         [ByName "efficiency"; ByName "safety";
                          ByInstance Examples.deadtime] None
                         Examples.world0 _ _ eq_refl)
                  _ (Some 3) eq_refl)).
Defined.

Lemma metric_id_eqb_sym a b : metric_id_eqb a b = metric_id_eqb b a.
Proof.
  destruct a, b; simpl; try done.
  - apply String.eqb_sym.
  - apply Nat.eqb_sym.
Qed.

Lemma od_keys_set d k v : od_keys (od_set d k v) = add_key (od_keys d) k.
Proof.
  unfold add_key. induction d as [|[k' v'] d IH]; simpl; [done|].
  destruct (metric_id_eqb k' k); simpl; [done|].
  unfold od_keys in *. rewrite IH.
  by destruct (existsb _ (map fst d)).
Qed.

Lemma lookups_app e1 e2 : lookups (e1 ++ e2) = lookups e1 ++ lookups e2.
Proof.
  induction e1 as [|[n|id args] e1 IH]; simpl; [done| |done].
  by rewrite IH.
Qed.

Lemma metric_calls_keys gm f tb af inj metrics :
  forall out out',
    fst (metric_calls gm f tb af inj metrics out) = Returns out' ->
    od_keys out' = fold_left add_key metrics (od_keys out) /\
    lookups (snd (metric_calls gm f tb af inj metrics out)) = names metrics.
Proof.
  induction metrics as [|metric metrics IH]; intros out out'; simpl.
  - by intros [= ->].
  - destruct metric as [n|m]; simpl.
    + destruct (gm n) as [m|]; simpl; [|done].
      destruct (call m _) as [r|e]; simpl; [|done].
      specialize (IH (od_set out (ByName n) r) out').
      destruct (metric_calls gm f tb af inj metrics _) as [o evs].
      simpl in *. intros Ho. destruct (IH Ho) as [-> ->].
      by rewrite od_keys_set.
    + destruct (call m _) as [r|e]; simpl; [|done].
      specialize (IH (od_set out (ByInstance m) r) out').
      destruct (metric_calls gm f tb af inj metrics _) as [o evs].
      simpl in *. intros Ho. destruct (IH Ho) as [-> ->].
      by rewrite od_keys_set.
Qed.

Lemma distinct_app_cons ks k ms :
  distinct (ks ++ k :: ms) = true ->
  existsb (fun k' => metric_id_eqb k' k) ks = false /\
  distinct ((ks ++ [k]) ++ ms) = true.
Proof.
  intros H. split; [|by rewrite <- app_assoc].
  induction ks as [|k0 ks IH]; simpl in *; [done|].
  apply andb_true_iff in H as [H1 H2].
  rewrite (IH H2), orb_false_r.
  rewrite existsb_app in H1; simpl in H1.
  apply negb_true_iff in H1.
  apply orb_false_iff in H1 as [_ H1].
  by apply orb_false_iff in H1 as [H1 _].
Qed.

Lemma key_order_distinct metrics :
  forall ks,
    distinct (ks ++ metrics) = true ->
    fold_left add_key metrics ks = ks ++ metrics.
Proof.
  induction metrics as [|k ms IH]; intros ks H; simpl.
  - by rewrite app_nil_r.
  - destruct (distinct_app_cons _ _ _ H) as [Hk Hd].
    unfold add_key at 2. rewrite Hk.
    rewrite (IH _ Hd). by rewrite <- app_assoc.
Qed.

(** What a returning call has computed, whether triggers were given or not. *)
Lemma evaluate_flag_returns_calls gm flag triggers metrics inj w out after w' :
  evaluate_flag gm flag triggers metrics inj w = (Returns (out, after), w') ->
  exists tb af h,
    fst (metric_calls gm (as_flag flag) tb af inj metrics []) = Returns out /\
    w' = log (with_heap w h)
           (snd (metric_calls gm (as_flag flag) tb af inj metrics [])).
Proof.
  intros He. destruct triggers as [l|].
  - destruct (heap w !! l) as [tb|] eqn:Hl.
    + destruct (evaluate_flag_returns _ _ _ _ _ _ _ _ _ _ Hl He)
        as (_ & _ & Ho & Hw).
      by eexists _, _, _.
    + by rewrite (evaluate_flag_dangling _ _ _ _ _ _ Hl) in He.
  - rewrite evaluate_flag_absent in He.
    exists None, None, (heap w). rewrite with_heap_id.
    destruct (metric_calls gm (as_flag flag) None None inj metrics [])
      as [[o|e] evs]; simpl in *; [|done].
    by inversion He.
Qed.

(** C3, as the code has it.  The results are keyed by the caller's own
    identifiers, never by the name of the metric found; the registry is
    looked up exactly for the entries given as names, in their order; and
    the keys come in the order of the [metrics] list with a repeated
    identifier kept at its first place only, which is the order of the list
    itself when no identifier is repeated. *)
Theorem evaluate_flag_result_keys gm flag triggers metrics inj w out after w' :
  evaluate_flag gm flag triggers metrics inj w = (Returns (out, after), w') ->
  od_keys out = key_order metrics /\
  (forall k, In k (od_keys out) -> In k metrics) /\
  (distinct metrics = true -> od_keys out = metrics) /\
  exists evs, trace w' = trace w ++ evs /\ lookups evs = names metrics.
Proof.
  intros He.
  destruct (evaluate_flag_returns_calls _ _ _ _ _ _ _ _ _ He)
    as (tb & af & h & Ho & ->).
  destruct (metric_calls_keys _ _ _ _ _ _ _ _ Ho) as [Hk Hl].
  simpl in Hk. fold (key_order metrics) in Hk.
  split; [done|]. split; [|split].
  - rewrite Hk. unfold key_order.
    assert (Hgen : forall ms ks k,
              In k (fold_left add_key ms ks) -> In k ks \/ In k ms).
    { induction ms as [|m ms IH]; intros ks k; simpl; [by left|].
      intros Hin. destruct (IH _ _ Hin) as [H|H]; [|by right; right].
      unfold add_key in H. destruct (existsb _ ks); [by left|].
      apply in_app_iff in H as [H|[H|[]]]; [by left|by right; left]. }
    intros k Hin. by destruct (Hgen _ _ _ Hin) as [[]|?].
  - intros Hd. rewrite Hk. by apply (key_order_distinct metrics []).
  - eexists. split; [reflexivity|done].
Qed.

Lemma evaluate_flag_result_keys_witness :
  od_keys [(ByName "deadtime", {| value := 10; unit := "%";
                                  result_description := "deadtime" |})]
  = key_order [ByName "deadtime"; ByName "deadtime"].
Proof.
  exact (proj1 (evaluate_flag_result_keys Examples.registry
                  (IsFlag Examples.flag1) None
                  [ByName "deadtime"; ByName "deadtime"] None Examples.world0
                  _ None
                  (snd (evaluate_flag Examples.registry (IsFlag Examples.flag1)
                          None [ByName "deadtime"; ByName "deadtime"] None
                          Examples.world0))
                  eq_refl)).
Defined.

(** C3 as stated fails when an identifier is repeated: the list
    ['deadtime', 'deadtime'] gives a mapping with the single key
    'deadtime'. *)
Lemma evaluate_flag_result_keys_repeated :
  exists out after w',
    evaluate_flag Examples.registry (IsFlag Examples.flag1) None
      [ByName "deadtime"; ByName "deadtime"] None Examples.world0
    = (Returns (out, after), w') /\
    od_keys out = [ByName "deadtime"] /\
    od_keys out <> [ByName "deadtime"; ByName "deadtime"].
Proof.
  eexists _, _, _. split; [vm_compute; reflexivity|].
  split; [reflexivity|discriminate].
Qed.

Lemma metric_loop_app gm f triggers after inj pre rest :
  forall out w,
    metric_loop gm f triggers after inj (pre ++ rest) out w =
    bind (metric_loop gm f triggers after inj pre out)
         (fun o => metric_loop gm f triggers after inj rest o) w.
Proof.
  induction pre as [|metric pre IH]; intros out w; simpl.
  - unfold bind, ret. done.
  - unfold bind in *.
    destruct (resolve gm metric w) as [[m|e] w1]; [|done].
    destruct (snapshot triggers w1) as [[tb|e] w2]; [|done].
    destruct (snapshot after w2) as [[af|e] w3]; [|done].
    destruct (invoke m _ w3) as [[r|e] w4]; [|done].
    apply IH.
Qed.

Lemma metric_loop_unknown gm f triggers after inj n post out w :
  gm n = None ->
  metric_loop gm f triggers after inj (ByName n :: post) out w =
    (Raises (UnknownMetricError n), log w [EvLookup n]).
Proof.
  intros Hn. simpl. unfold bind at 1, resolve, bind at 1, emit; simpl.
  by rewrite Hn.
Qed.

(** A call with more metrics does what the shorter call does, then goes on
    with the remaining ones. *)
Lemma evaluate_flag_app gm flag triggers pre rest inj w :
  evaluate_flag gm flag triggers (pre ++ rest) inj w =
    match evaluate_flag gm flag triggers pre inj w with
    | (Returns (out, after), w1) =>
        match metric_loop gm (as_flag flag) triggers after inj rest out w1 with
        | (Returns out', w2) => (Returns (out', after), w2)
        | (Raises e, w2) => (Raises e, w2)
        end
    | (Raises e, w1) => (Raises e, w1)
    end.
Proof.
  unfold evaluate_flag, bind.
  destruct (apply_vetoes (as_flag flag) triggers w) as [[after|e] w0]; [|done].
  rewrite metric_loop_app. unfold bind.
  destruct (metric_loop gm _ triggers after inj pre [] w0) as [[out|e] w1];
    [|done].
  unfold ret.
  by destruct (metric_loop gm _ triggers after inj rest out w1) as [[o|e] w2].
Qed.

(** C4, as the code has it.  A call whose metrics contain a name without a
    registry entry never returns results.  It raises [UnknownMetricError]
    for that name whenever the same call with only the metrics listed before
    the name returns, and it has then done all that the shorter call does:
    the triggers are partitioned and the earlier metrics called. *)
Theorem evaluate_flag_unknown_metric gm flag triggers pre n post inj w :
  gm n = None ->
  (forall r w',
     evaluate_flag gm flag triggers (pre ++ ByName n :: post) inj w
     <> (Returns r, w')) /\
  (forall out after w1,
     evaluate_flag gm flag triggers pre inj w = (Returns (out, after), w1) ->
     evaluate_flag gm flag triggers (pre ++ ByName n :: post) inj w
     = (Raises (UnknownMetricError n), log w1 [EvLookup n])).
Proof.
  intros Hn. rewrite evaluate_flag_app. split.
  - intros r w'.
    destruct (evaluate_flag gm flag triggers pre inj w)
      as [[[out after]|e] w1]; [|done].
    by rewrite (metric_loop_unknown _ _ _ _ _ _ _ _ _ Hn).
  - intros out after w1 ->.
    by rewrite (metric_loop_unknown _ _ _ _ _ _ _ _ _ Hn).
Qed.

Lemma evaluate_flag_unknown_metric_witness :
  evaluate_flag Examples.registry (IsFlag Examples.flag1) (Some 1)
    ([ByName "Efficiency"] ++ ByName "bogus" :: [ByName "deadtime"]) None
    Examples.world0
  = (Raises (UnknownMetricError "bogus"),
     log (snd (evaluate_flag Examples.registry (IsFlag Examples.flag1) (Some 1)
                 [ByName "Efficiency"] None Examples.world0))
       [EvLookup "bogus"]).
Proof.
  exact (proj2 (evaluate_flag_unknown_metric Examples.registry
                  (IsFlag Examples.flag1) (Some 1) [ByName "Efficiency"]
                  "bogus" [ByName "deadtime"] None Examples.world0 eq_refl)
           _ _ _ eq_refl).
Defined.

(** C4 as stated fails.  With a row that has no time, the call raises for
    that row and never reaches the unregistered name; and with a metric
    listed before the unregistered name, that metric has been called, with
    the computed [after], before [UnknownMetricError] is raised. *)
Lemma evaluate_flag_unknown_metric_not_first :
  Examples.registry "bogus" = None /\
  fst (evaluate_flag Examples.registry (IsFlag Examples.flag1) (Some 2)
         [ByName "bogus"] None Examples.world0)
  = Raises (MissingFieldError "time") /\
  exists w',
    evaluate_flag Examples.registry (IsFlag Examples.flag1) (Some 1)
      [ByName "Efficiency"; ByName "bogus"] None Examples.world0
    = (Raises (UnknownMetricError "bogus"), w') /\
    heap w' !! 3 = Some {| columns := ["time"; "snr"]; rows := [] |} /\
    trace w' =
      [EvLookup "Efficiency";
       EvInvoke 2 (CallTriggers Examples.flag1 (Some Examples.triggers2)
                     (Some {| columns := ["time"; "snr"]; rows := [] |}));
       EvLookup "bogus"].
Proof.
  split; [reflexivity|]. split; [reflexivity|].
  eexists. split; [vm_compute; reflexivity|]. split; reflexivity.
Qed.

(** The heap after a call, returning or not: the caller's tables, and after
    them the new table when a table of triggers was given. *)
Lemma evaluate_flag_heap gm flag triggers metrics inj w :
  heap (snd (evaluate_flag gm flag triggers metrics inj w)) =
  heap w ++ match input_table w triggers with
            | Some tb => [after_table (as_flag flag) tb]
            | None => []
            end.
Proof.
  destruct triggers as [l|]; simpl.
  - destruct (heap w !! l) as [tb|] eqn:Hl.
    + rewrite (evaluate_flag_present _ _ _ _ _ _ _ Hl).
      by destruct (snd (scan (as_flag flag) (rows tb))).
    + rewrite (evaluate_flag_dangling _ _ _ _ _ _ Hl). simpl.
      by rewrite app_nil_r.
  - rewrite evaluate_flag_absent. simpl. by rewrite app_nil_r.
Qed.

Lemma evaluate_flag_after gm flag triggers metrics inj w out after w' :
  evaluate_flag gm flag triggers metrics inj w = (Returns (out, after), w') ->
  match triggers with
  | Some l =>
      exists tb, heap w !! l = Some tb /\ after = Some (length (heap w)) /\
                 heap w' !! length (heap w) = Some (filtered (as_flag flag) tb)
  | None => after = None
  end.
Proof.
  intros He. destruct triggers as [l|].
  - destruct (heap w !! l) as [tb|] eqn:Hl.
    + destruct (evaluate_flag_returns _ _ _ _ _ _ _ _ _ _ Hl He)
        as (_ & -> & _ & ->).
      exists tb. repeat split; try done. simpl. by apply list_lookup_middle.
    + by rewrite (evaluate_flag_dangling _ _ _ _ _ _ Hl) in He.
  - rewrite evaluate_flag_absent in He.
    destruct (fst (metric_calls gm _ None None inj metrics [])); simpl in He;
      [|done].
    by inversion He.
Qed.

(** C5.  Without triggers, a call that returns gives [None] for [after] and
    allocates nothing; with a table of triggers it gives a reference to a
    table, also when every trigger is vetoed and that table is empty.  So
    "no triggers given" and "all triggers vetoed" are told apart. *)
Theorem evaluate_flag_no_triggers :
  (forall gm flag metrics inj w out after w',
     evaluate_flag gm flag None metrics inj w = (Returns (out, after), w') ->
     after = None /\ heap w' = heap w) /\
  (forall gm flag l metrics inj w out after w',
     evaluate_flag gm flag (Some l) metrics inj w = (Returns (out, after), w') ->
     exists a ta, after = Some a /\ heap w' !! a = Some ta) /\
  (forall gm flag inj w,
     evaluate_flag gm flag None [] inj w = (Returns ([], None), w)) /\
  (exists out a w',
     evaluate_flag Examples.registry (IsFlag Examples.flag1) (Some 1)
       default_metrics None Examples.world0 = (Returns (out, Some a), w') /\
     heap w' !! a = Some {| columns := ["time"; "snr"]; rows := [] |}).
Proof.
  split; [|split; [|split]].
  - intros gm flag metrics inj w out after w' He.
    split; [exact (evaluate_flag_after _ _ _ _ _ _ _ _ _ He)|].
    pose proof (evaluate_flag_heap gm flag None metrics inj w) as Hh.
    rewrite He in Hh; simpl in Hh. by rewrite app_nil_r in Hh.
  - intros gm flag l metrics inj w out after w' He.
    destruct (evaluate_flag_after _ _ _ _ _ _ _ _ _ He) as (tb & _ & -> & Ha).
    by eexists _, _.
  - intros gm flag inj w. rewrite evaluate_flag_absent; simpl.
    by rewrite log_nil.
  - eexists _, _, _. split; [vm_compute; reflexivity|reflexivity].
Qed.

Lemma evaluate_flag_no_triggers_witness :
  @None nat = None /\
  heap (snd (evaluate_flag Examples.registry (IsFlag Examples.flag1) None
               default_metrics None Examples.world0))
  = heap Examples.world0.
Proof.
  exact (proj1 evaluate_flag_no_triggers Examples.registry
           (IsFlag Examples.flag1) default_metrics None Examples.world0 _ None
           (snd (evaluate_flag Examples.registry (IsFlag Examples.flag1) None
                   default_metrics None Examples.world0))
           eq_refl).
Defined.



Lemma drop_log w evs : drop (length (trace w)) (trace w ++ evs) = evs.
Proof. by rewrite drop_app_length. Qed.

(** Calls on the same flag, metrics and injections, in two states in which
    the triggers have the same contents, end the same way. *)
Lemma evaluate_flag_same_inputs gm flag triggers metrics inj w1 w2 :
  input_table w1 triggers = input_table w2 triggers ->
  same_result (evaluate_flag gm flag triggers metrics inj w1)
              (evaluate_flag gm flag triggers metrics inj w2) /\
  new_events (length (trace w1)) (evaluate_flag gm flag triggers metrics inj w1)
  = new_events (length (trace w2))
      (evaluate_flag gm flag triggers metrics inj w2).
Proof.
  unfold same_result, new_events. destruct triggers as [l|]; simpl.
  - intros Hl. destruct (heap w1 !! l) as [tb|] eqn:H1.
    + symmetry in Hl.
      rewrite (evaluate_flag_present _ _ _ _ _ _ _ H1).
      rewrite (evaluate_flag_present _ _ _ _ _ _ _ Hl).
      destruct (snd (scan (as_flag flag) (rows tb))) as [e|]; simpl.
      * by rewrite !drop_all.
      * rewrite !drop_log. split; [|done].
        destruct (fst (metric_calls gm _ _ _ inj metrics [])) as [out|e];
          simpl; [|done].
        split; [done|]. exists (after_table (as_flag flag) tb).
        split; by apply list_lookup_middle.
    + symmetry in Hl.
      rewrite (evaluate_flag_dangling _ _ _ _ _ _ H1).
      rewrite (evaluate_flag_dangling _ _ _ _ _ _ Hl). simpl.
      by rewrite !drop_all.
  - intros _. rewrite !evaluate_flag_absent. simpl. rewrite !drop_log.
    split; [|done].
    by destruct (fst (metric_calls gm _ None None inj metrics [])).
Qed.

Lemma evaluate_flag_input_kept gm flag triggers metrics inj w :
  input_table (snd (evaluate_flag gm flag triggers metrics inj w)) triggers
  = input_table w triggers.
Proof.
  destruct triggers as [l|]; simpl; [|done].
  rewrite evaluate_flag_heap. simpl.
  destruct (heap w !! l) as [tb|] eqn:Hl.
  - by apply lookup_app_l_Some.
  - by rewrite app_nil_r.
Qed.

(** C7.  Calling [evaluate_flag] a second time with the same flag, triggers,
    metrics and injections, in the state the first call left, ends as the
    first call did: the same exception, or the same results and an [after]
    with the same contents; and it makes the same calls. *)
Theorem evaluate_flag_deterministic gm flag triggers metrics inj w :
  let first := evaluate_flag gm flag triggers metrics inj w in
  let second := evaluate_flag gm flag triggers metrics inj (snd first) in
  same_result first second /\
  new_events (length (trace w)) first
  = new_events (length (trace (snd first))) second.
Proof.
  intros first second.
  apply evaluate_flag_same_inputs.
  symmetry. apply evaluate_flag_input_kept.
Qed.

(** * The veto-flag tab *)

Section InitFacts.

Variable Plot : Type.
Variable Padding : Type.
Variable ParentArgs : Type.
Variable parent_init :
  flag_entry -> list string -> ParentArgs -> outcome (list Plot).
Variable get_channel : string -> outcome Channel.
Variable format_padding : list flag_entry -> pyvalue -> outcome Padding.
Variable configure_plots :
  FlagTab.t Plot Padding -> string -> outcome (list nat * list Plot).

(** A construction that returns: what the parts of the tab are. *)
Lemma init_returns name flags metrics channel etg format intersection
    labels segmentfile minseglength padding states kwargs tab :
  FlagTab.__init__ Plot Padding ParentArgs parent_init get_channel
    format_padding configure_plots name flags metrics channel etg format
    intersection labels segmentfile minseglength padding states kwargs
  = Returns tab ->
  FlagTab.flags tab = tested_flags name flags /\
  FlagTab.name tab = display_name name flags /\
  FlagTab.metaflag tab =
    PyStr.join (if intersection then "&" else "|")
      (map py_str (tested_flags name flags)) /\
  FlagTab.etg tab = etg /\
  (exists given,
     parent_init (display_name name flags) states kwargs = Returns given /\
     (given = [] -> is_Some etg)).
Proof.
  unfold FlagTab.__init__, FlagTab.init_plots, obind.
  assert (Hshape :
            (if (length flags =? 0)%nat
             then ([name],
                   match name with
                   | FlagFile n _ => FlagName n
                   | FlagName _ => name
                   end)
             else (flags, name))
            = (tested_flags name flags, display_name name flags)).
  { destruct flags; simpl; [|done]. by destruct name. }
  rewrite Hshape.
  destruct (parent_init _ states kwargs) as [given|e] eqn:Hp; [|done].
  destruct (match channel with
            | Some EmptyString => _
            | Some (String _ _ as c) => _
            | None => _
            end) as [ch|e]; [|done].
  destruct (format_padding _ padding) as [pad|e]; [|done].
  cbn [FlagTab.plots FlagTab.etg FlagTab.metaflag].
  destruct given as [|g given]; cbn [length Nat.eqb].
  - destruct etg as [e|]; [|done].
    destruct (configure_plots _ _) as [cfg|e']; [|done].
    intros [= <-]. cbn. repeat split; try by destruct intersection.
    exists []. split; [done|]. by eexists.
  - intros [= <-]. cbn. repeat split; try by destruct intersection.
    by exists (g :: given).
Qed.

(** C8.  The combined name of a tab that has been built is the combination
    expression over its flags, each as [str] prints it: the first, then for
    each further one "&" and the flag when the intersection is chosen, "|"
    and the flag otherwise.  For flags given by name these are the names
    themselves: one name stands alone, two names are the first, the
    operator and the second. *)
Theorem FlagTab_metaflag_join name flags metrics channel etg format
    (intersection : bool) labels segmentfile minseglength padding states
    kwargs tab :
  FlagTab.__init__ Plot Padding ParentArgs parent_init get_channel
    format_padding configure_plots name flags metrics channel etg format
    intersection labels segmentfile minseglength padding states kwargs
  = Returns tab ->
  let op := if intersection then "&" else "|" in
  FlagTab.metaflag tab = combination op (map py_str (FlagTab.flags tab)) /\
  (forall ns,
     FlagTab.flags tab = map FlagName ns ->
     FlagTab.metaflag tab = combination op ns) /\
  (forall n ns,
     flags = map FlagName (n :: ns) ->
     FlagTab.metaflag tab = combination op (n :: ns)) /\
  (forall a, FlagTab.flags tab = [FlagName a] -> FlagTab.metaflag tab = a) /\
  (forall a b,
     FlagTab.flags tab = [FlagName a; FlagName b] ->
     FlagTab.metaflag tab = String.append a (String.append op b)).
Proof.
  intros Hinit op.
  destruct (init_returns _ _ _ _ _ _ _ _ _ _ _ _ _ _ Hinit)
    as (Hf & _ & Hm & _).
  fold op in Hm. rewrite join_combination, <- Hf in Hm.
  assert (Hnames : forall l, map py_str (map FlagName l) = l).
  { induction l as [|x l IH]; simpl; [done|]. by rewrite IH. }
  split; [exact Hm|]. split; [|split; [|split]].
  - intros ns Hns. by rewrite Hm, Hns, Hnames.
  - intros n ns Hns. rewrite Hm, Hf, Hns.
    change (tested_flags name (map FlagName (n :: ns)))
      with (map FlagName (n :: ns)).
    by rewrite Hnames.
  - intros a Ha. by rewrite Hm, Ha.
  - intros a b Hab. by rewrite Hm, Hab.
Qed.

(** C9.  A tab built with an empty list of flags tests the flag it is named
    after: its flags are the list of that one name.  When the name was
    given as a pair, the name the tab goes by, the one handed to the parent
    constructor, is the first item of the pair, and the whole pair stays as
    the flag. *)
Theorem FlagTab_default_flags name metrics channel etg format intersection
    labels segmentfile minseglength padding states kwargs tab :
  FlagTab.__init__ Plot Padding ParentArgs parent_init get_channel
    format_padding configure_plots name [] metrics channel etg format
    intersection labels segmentfile minseglength padding states kwargs
  = Returns tab ->
  FlagTab.flags tab = [name] /\
  (forall n, name = FlagName n -> FlagTab.name tab = FlagName n) /\
  (forall n src,
     name = FlagFile n src ->
     FlagTab.name tab = FlagName n /\
     FlagTab.flags tab = [FlagFile n src]) /\
  (exists given,
     parent_init (FlagTab.name tab) states kwargs = Returns given).
Proof.
  intros Hinit.
  destruct (init_returns _ _ _ _ _ _ _ _ _ _ _ _ _ _ Hinit)
    as (Hf & Hn & _ & _ & given & Hp & _).
  simpl in Hf. split; [done|]. split; [|split].
  - intros n ->. by rewrite Hn.
  - intros n src ->. by rewrite Hn, Hf.
  - exists given. by rewrite Hn.
Qed.

End InitFacts.

Lemma FlagTab_metaflag_join_witness :
  exists tab,
    FlagTab.__init__ string pyvalue (list string) Examples.parent_keeps
      Examples.channel_named Examples.padding_kept Examples.segment_plot
      (FlagName "combined") (map FlagName ["H1:DMT-A:1"; "H1:DMT-B:1"]) []
      None (Some "omicron") None true None None 0%float Examples.no_padding
      ["All"] []
    = Returns tab /\
    FlagTab.metaflag tab = "H1:DMT-A:1&H1:DMT-B:1".
Proof.
  eexists. split; [reflexivity|].
  exact (proj1 (proj2 (proj2
           (FlagTab_metaflag_join string pyvalue (list string)
              Examples.parent_keeps Examples.channel_named
              Examples.padding_kept Examples.segment_plot
              (FlagName "combined")
              (map FlagName ["H1:DMT-A:1"; "H1:DMT-B:1"]) [] None
              (Some "omicron") None true None None 0%float
              Examples.no_padding ["All"] [] _ eq_refl)))
           "H1:DMT-A:1" ["H1:DMT-B:1"] eq_refl).
Defined.

Lemma FlagTab_default_flags_witness :
  exists tab,
    FlagTab.__init__ string pyvalue (list string) Examples.parent_keeps
      Examples.channel_named Examples.padding_kept Examples.segment_plot
      (FlagFile "H1:DMT-A:1" "segments.xml") [] [] (Some "H1:STRAIN")
      (Some "omicron") None false None None 0%float Examples.no_padding
      ["All"] []
    = Returns tab /\
    FlagTab.name tab = FlagName "H1:DMT-A:1" /\
    FlagTab.flags tab = [FlagFile "H1:DMT-A:1" "segments.xml"].
Proof.
  eexists. split; [reflexivity|].
  exact (proj1 (proj2 (proj2
           (FlagTab_default_flags string pyvalue (list string)
              Examples.parent_keeps Examples.channel_named
              Examples.padding_kept Examples.segment_plot
              (FlagFile "H1:DMT-A:1" "segments.xml") [] (Some "H1:STRAIN")
              (Some "omicron") None false None None 0%float
              Examples.no_padding ["All"] [] _ eq_refl)))
           "H1:DMT-A:1" "segments.xml" eq_refl).
Defined.

Section FromIniFacts.

Variable get_metric : string -> option Metric.
Variable get_channel : string -> Channel.
Variable eval : string -> outcome pyvalue.

Lemma config_get_section config section option v :
  config_get config section option = Returns v ->
  exists opts, assoc section config = Some opts.
Proof.
  unfold config_get. destruct (assoc section config) as [opts|]; [|done].
  by exists opts.
Qed.

Lemma config_get_in_section config section option opts :
  assoc section config = Some opts ->
  config_get config section option =
    match assoc option opts with
    | Some v => Returns v
    | None => Raises (NoOptionError option section)
    end.
Proof. unfold config_get. by intros ->. Qed.

(** Reading the other options leaves the [intersection] key alone and
    sets the [flags] key, from the configuration unless it was given. *)
Lemma read_options_keys config section kw kw1 :
  FlagTab.read_options get_metric get_channel eval config section kw
  = Returns kw1 ->
  FlagTab.kw_intersection kw1 = FlagTab.kw_intersection kw /\
  exists text,
    config_get config section "flags" = Returns text /\
    FlagTab.kw_flags kw1 =
      Some match FlagTab.kw_flags kw with
           | Some flags => flags
           | None => map FlagName (FlagTab.csv text)
           end.
Proof.
  unfold FlagTab.read_options, obind, except_NoOptionError.
  destruct (config_get config section "flags") as [text|e]; [|done].
  intros H.
  assert (exists text0, Returns (A := string) text = Returns text0 /\
            FlagTab.kw_intersection kw1 = FlagTab.kw_intersection kw /\
            FlagTab.kw_flags kw1 =
              Some match FlagTab.kw_flags kw with
                   | Some flags => flags
                   | None => map FlagName (FlagTab.csv text0)
                   end) as (text0 & [= <-] & Hi & Hf).
  { exists text. split; [done|].
    repeat match type of H with
           | context [config_get ?c ?s ?o] =>
               destruct (config_get c s o) as [?|[]];
               simpl in H; try discriminate
           | context [eval ?t] =>
               destruct (eval t) as [?|[]]; simpl in H; try discriminate
           | context [omap_list ?f ?l] =>
               destruct (omap_list f l) as [?|[]];
               simpl in H; try discriminate
           end;
      inversion H; subst; simpl; by destruct (FlagTab.kw_flags kw). }
  split; [done|]. by exists text.
Qed.

(** C10.  When the options before it are read without error, more than
    one flag is listed and the caller gave no [intersection], the
    [combine] option decides: a value that is "intersection" when the case
    of the letters is ignored sets the intersection, one that is "union"
    when the case is ignored, or no such option, sets the union, and any
    other value raises [ValueError]. *)
Theorem from_ini_combine config section kw kw1 flags :
  FlagTab.read_options get_metric get_channel eval config section kw
  = Returns kw1 ->
  FlagTab.kw_flags kw1 = Some flags ->
  1 < length flags ->
  FlagTab.kw_intersection kw = None ->
  let result :=
    FlagTab.from_ini get_metric get_channel eval config section kw in
  match config_get config section "combine" with
  | Returns combine =>
      (PyStr.equal_ignoring_case combine "intersection" = true ->
       result = Returns (FlagTab.set_intersection kw1 (Some true))) /\
      (PyStr.equal_ignoring_case combine "union" = true ->
       result = Returns (FlagTab.set_intersection kw1 (Some false))) /\
      (PyStr.equal_ignoring_case combine "intersection" = false ->
       PyStr.equal_ignoring_case combine "union" = false ->
       result = Raises (ValueError ("Cannot parse flag combine operator "
                                      ++ PyStr.repr combine)))
  | Raises e =>
      e = NoOptionError "combine" section /\
      result = Returns (FlagTab.set_intersection kw1 (Some false))
  end.
Proof.
  intros Hr Hf Hlen Hi result.
  destruct (read_options_keys _ _ _ _ Hr) as (Hi1 & text & Ht & _).
  destruct (config_get_section _ _ _ _ Ht) as (opts & Hs).
  assert (Hres : result = FlagTab.read_combine config section flags kw1).
  { subst result. unfold FlagTab.from_ini. rewrite Hr; simpl.
    by rewrite Hf. }
  rewrite Hres. unfold FlagTab.read_combine.
  rewrite Hi1, Hi. simpl.
  assert (Hlt : (1 <? length flags)%nat = true) by by apply Nat.ltb_lt.
  rewrite Hlt. simpl.
  rewrite (config_get_in_section _ _ "combine" _ Hs).
  destruct (assoc "combine" opts) as [combine|]; [|done].
  rewrite <- (lower_equal combine "intersection").
  rewrite <- (lower_equal combine "union").
  change (PyStr.lower "intersection") with "intersection".
  change (PyStr.lower "union") with "union".
  destruct (String.eqb_spec (PyStr.lower combine) "intersection") as [E1|N1].
  - split; [done|]. split; [|done].
    rewrite E1. by intros [=].
  - destruct (String.eqb (PyStr.lower combine) "union"); simpl.
    + by repeat split.
    + by repeat split.
Qed.

End FromIniFacts.

Lemma from_ini_combine_witness :
  FlagTab.from_ini Examples.registry mkChannel Examples.no_eval
    Examples.config1 "tab-veto" Examples.no_kwargs
  = Returns
      {| FlagTab.kw_flags :=
           Some [FlagName "H1:DMT-A:1"; FlagName "H1:DMT-B:1"];
         FlagTab.kw_segmentfile := None;
         FlagTab.kw_padding := None;
         FlagTab.kw_metrics :=
           Some [ByInstance Examples.deadtime;
                 ByInstance Examples.efficiency];
         FlagTab.kw_labels := None;
         FlagTab.kw_channel := None;
         FlagTab.kw_etg := None;
         FlagTab.kw_format := None;
         FlagTab.kw_intersection := Some true |}.
Proof.
  exact (proj1 (from_ini_combine Examples.registry mkChannel Examples.no_eval
                  Examples.config1 "tab-veto" Examples.no_kwargs _
                  [FlagName "H1:DMT-A:1"; FlagName "H1:DMT-B:1"]
                  eq_refl eq_refl (le_n 2) eq_refl)
           eq_refl).
Defined.

(** * Further properties of [evaluate_flag] *)

Lemma scan_incomplete flag ts :
  forallb has_time ts = false ->
  snd (scan flag ts) = Some (MissingFieldError "time").
Proof.
  induction ts as [|t ts IH]; simpl; [done|].
  unfold has_time at 1.
  destruct (time_of t) as [v|]; simpl; [|done].
  intros H. destruct (scan flag ts) as [kept e]; simpl in *. by apply IH.
Qed.

(** X1.  When some trigger has no time, the call raises for it while
    partitioning: no registry lookup and no metric call is made, and the
    tables of the caller are as before. *)
Theorem evaluate_flag_missing_time gm flag l metrics inj w tb :
  heap w !! l = Some tb ->
  forallb has_time (rows tb) = false ->
  exists w',
    evaluate_flag gm flag (Some l) metrics inj w
    = (Raises (MissingFieldError "time"), w') /\
    trace w' = trace w /\
    (forall l' t, heap w !! l' = Some t -> heap w' !! l' = Some t).
Proof.
  intros Hl Hbad.
  rewrite (evaluate_flag_present _ _ _ _ _ _ _ Hl).
  rewrite (scan_incomplete _ _ Hbad).
  eexists. split; [reflexivity|]. split; [done|].
  intros l' t Hl'. simpl. by apply lookup_app_l_Some.
Qed.

Lemma evaluate_flag_missing_time_witness :
  exists w',
    evaluate_flag Examples.registry (IsFlag Examples.flag1) (Some 2)
      default_metrics None Examples.world0
    = (Raises (MissingFieldError "time"), w') /\
    trace w' = trace Examples.world0 /\
    (forall l' t,
       heap Examples.world0 !! l' = Some t -> heap w' !! l' = Some t).
Proof.
  exact (evaluate_flag_missing_time Examples.registry (IsFlag Examples.flag1)
           2 default_metrics None Examples.world0 Examples.triggers3
           eq_refl eq_refl).
Defined.

(** X2.  An exception raised by a metric is raised by [evaluate_flag]
    unchanged, and the call of that metric is the last thing done: the
    entries after it are neither looked up nor called. *)
Theorem evaluate_flag_metric_raises gm flag triggers pre metric post inj w
    out after w1 m e :
  evaluate_flag gm flag triggers pre inj w = (Returns (out, after), w1) ->
  resolves gm metric m ->
  let F := as_flag flag in
  let tb := input_table w triggers in
  let args := dispatch m F tb (filtered F <$> tb) inj in
  call m args = Raises e ->
  evaluate_flag gm flag triggers (pre ++ metric :: post) inj w
  = (Raises e, log w1 (lookup_events metric ++ [EvInvoke (oid m) args])).
Proof.
  intros He Hres F tb args Hcall. subst args tb F.
  rewrite evaluate_flag_app, He.
  destruct (evaluate_flag_returns_all _ _ _ _ _ _ _ _ _ He)
    as (_ & _ & Ht & Ha).
  rewrite (metric_loop_calls gm _ triggers after inj (metric :: post) out w1
             _ _ Ht Ha).
  cbn [metric_calls].
  destruct metric as [n|m']; cbn [resolves lookup_events] in *.
  - rewrite Hres, Hcall. done.
  - subst m'. rewrite Hcall. done.
Qed.

Lemma evaluate_flag_metric_raises_witness :
  evaluate_flag Examples.registry (IsFlag Examples.flag1) None
    ([ByName "deadtime"] ++ ByName "efficiency" :: [ByName "safety"]) None
    Examples.world0
  = (Raises (MetricError "TypeError"),
     log (snd (evaluate_flag Examples.registry (IsFlag Examples.flag1) None
                 [ByName "deadtime"] None Examples.world0))
       (lookup_events (ByName "efficiency") ++
        [EvInvoke 2 (CallTriggers Examples.flag1 None None)])).
Proof.
  exact (evaluate_flag_metric_raises Examples.registry (IsFlag Examples.flag1)
           None [ByName "deadtime"] (ByName "efficiency") [ByName "safety"]
           None Examples.world0 _ _ _ Examples.efficiency
           (MetricError "TypeError") eq_refl eq_refl eq_refl).
Defined.

Lemma metric_id_eqb_refl a : metric_id_eqb a a = true.
Proof.
  destruct a; simpl; [apply String.eqb_refl|apply Nat.eqb_refl].
Qed.

Lemma metric_id_eqb_trans a b c :
  metric_id_eqb a b = true -> metric_id_eqb b c = metric_id_eqb a c.
Proof.
  destruct a, b; simpl; try done.
  - intros H. apply String.eqb_eq in H. by subst.
  - intros H. apply Nat.eqb_eq in H. destruct c; simpl; [done|].
    by rewrite H.
Qed.

(** Reading a key after an assignment. *)
Lemma od_get_set d k v k' :
  od_get (od_set d k v) k' =
  if metric_id_eqb k k' then Some v else od_get d k'.
Proof.
  induction d as [|[k0 v0] d IH]; simpl; [done|].
  destruct (metric_id_eqb k0 k) eqn:E; simpl.
  - rewrite (metric_id_eqb_trans _ _ k' E).
    by destruct (metric_id_eqb k0 k').
  - rewrite IH. destruct (metric_id_eqb k0 k') eqn:E'; [|done].
    destruct (metric_id_eqb k k') eqn:E''; [|done].
    rewrite metric_id_eqb_sym in E''.
    rewrite (metric_id_eqb_trans _ _ k E') in E''. congruence.
Qed.

Lemma metric_calls_values gm f tb af inj metrics :
  forall out out' k,
    fst (metric_calls gm f tb af inj metrics out) = Returns out' ->
    if existsb (fun metric => metric_id_eqb metric k) metrics
    then exists metric m r,
           In metric metrics /\ metric_id_eqb metric k = true /\
           resolves gm metric m /\
           call m (dispatch m f tb af inj) = Returns r /\
           od_get out' k = Some r
    else od_get out' k = od_get out k.
Proof.
  induction metrics as [|metric metrics IH]; intros out out' k; simpl.
  - by intros [= ->].
  - assert (Hstep : forall m r,
              resolves gm metric m ->
              call m (dispatch m f tb af inj) = Returns r ->
              fst (metric_calls gm f tb af inj metrics (od_set out metric r))
              = Returns out' ->
              if metric_id_eqb metric k
                 || existsb (fun metric0 => metric_id_eqb metric0 k) metrics
              then exists metric0 m0 r0,
                     (metric = metric0 \/ In metric0 metrics) /\
                     metric_id_eqb metric0 k = true /\
                     resolves gm metric0 m0 /\
                     call m0 (dispatch m0 f tb af inj) = Returns r0 /\
                     od_get out' k = Some r0
              else od_get out' k = od_get out k).
    { intros m r Hres Hcall Ho.
      specialize (IH _ _ k Ho).
      destruct (existsb _ metrics).
      - destruct IH as (metric0 & m0 & r0 & ? & ? & ? & ? & ?).
        rewrite orb_true_r. exists metric0, m0, r0. auto.
      - rewrite orb_false_r. rewrite IH, od_get_set.
        destruct (metric_id_eqb metric k) eqn:E; [|done].
        exists metric, m, r. auto. }
    destruct metric as [n|m]; simpl.
    + destruct (gm n) as [m|] eqn:Hn; simpl; [|done].
      destruct (call m _) as [r|e] eqn:Hc; simpl; [|done].
      intros Ho. apply (Hstep m r Hn Hc).
      by destruct (metric_calls gm f tb af inj metrics _).
    + destruct (call m _) as [r|e] eqn:Hc; simpl; [|done].
      intros Ho. apply (Hstep m r eq_refl Hc).
      by destruct (metric_calls gm f tb af inj metrics _).
Qed.

(** X3.  In the results of a returning call every entry of [metrics] is a
    key, and the value under it is the [Result] returned by the call of a
    metric which an entry with that key stands for; for an entry given as a
    name, the metric registered under the name. *)
Theorem evaluate_flag_result_values gm flag triggers metrics inj w out after
    w' metric :
  evaluate_flag gm flag triggers metrics inj w = (Returns (out, after), w') ->
  In metric metrics ->
  let F := as_flag flag in
  let tb := input_table w triggers in
  let af := filtered F <$> tb in
  (exists metric' m r,
     In metric' metrics /\ metric_id_eqb metric' metric = true /\
     resolves gm metric' m /\
     call m (dispatch m F tb af inj) = Returns r /\
     od_get out metric = Some r) /\
  (forall n, metric = ByName n ->
     exists m r,
       gm n = Some m /\ call m (dispatch m F tb af inj) = Returns r /\
       od_get out (ByName n) = Some r).
Proof.
  intros He Hin F tb af.
  destruct (evaluate_flag_returns_all _ _ _ _ _ _ _ _ _ He) as (Ho & _).
  pose proof (metric_calls_values _ _ _ _ _ _ _ _ metric Ho) as Hv.
  assert (Hex : existsb (fun metric0 => metric_id_eqb metric0 metric) metrics
                = true).
  { apply existsb_exists. exists metric. split; [done|].
    apply metric_id_eqb_refl. }
  rewrite Hex in Hv. split; [exact Hv|].
  intros n ->. destruct Hv as (metric' & m & r & _ & Heq & Hres & Hc & Hg).
  destruct metric' as [n'|m']; simpl in Heq; [|done].
  apply String.eqb_eq in Heq. subst n'. by exists m, r.
Qed.

Lemma evaluate_flag_result_values_witness :
  exists m r,
    Examples.registry "efficiency" = Some m /\
    call m (dispatch m (as_flag (IsFlag Examples.flag1))
              (input_table Examples.world0 (Some 0))
              (filtered (as_flag (IsFlag Examples.flag1))
                 <$> input_table Examples.world0 (Some 0)) None)
    = Returns r /\
    od_get
      [(ByName "deadtime",
        {| value := 10; unit := "%"; result_description := "deadtime" |});
       (ByName "efficiency",
        {| value := 50; unit := "%"; result_description := "efficiency" |})]
      (ByName "efficiency") = Some r.
Proof.
  exact (proj2 (evaluate_flag_result_values Examples.registry
                  (IsFlag Examples.flag1) (Some 0)
                  [ByName "deadtime"; ByName "efficiency"] None
                  Examples.world0 _ (Some 3)
                  (snd (evaluate_flag Examples.registry
                          (IsFlag Examples.flag1) (Some 0)
                          [ByName "deadtime"; ByName "efficiency"] None
                          Examples.world0))
                  (ByName "efficiency") eq_refl
                  (or_intror (or_introl eq_refl)))
           "efficiency" eq_refl).
Defined.

(** X4.  A returning call has made exactly one call per entry of
    [metrics], in the order of the list and with the dispatched arguments,
    each call of an entry given by name coming right after the lookup of
    that name; an entry that occurs twice is looked up and called twice. *)
Theorem evaluate_flag_calls_in_order gm flag triggers metrics inj w out after
    w' :
  evaluate_flag gm flag triggers metrics inj w = (Returns (out, after), w') ->
  let F := as_flag flag in
  let tb := input_table w triggers in
  trace w' = trace w ++ expected_events gm F tb (filtered F <$> tb) inj metrics.
Proof.
  intros He F tb.
  destruct (evaluate_flag_returns_all _ _ _ _ _ _ _ _ _ He) as (Ho & -> & _).
  by rewrite (metric_calls_events _ _ _ _ _ _ _ _ Ho).
Qed.

Lemma evaluate_flag_calls_in_order_witness :
  trace (snd (evaluate_flag Examples.registry (IsFlag Examples.flag1) None
                [ByName "deadtime"; ByInstance Examples.deadtime;
                 ByName "deadtime"] None Examples.world0))
  = trace Examples.world0 ++
    [EvLookup "deadtime"; EvInvoke 1 (CallFlag Examples.flag1);
     EvInvoke 1 (CallFlag Examples.flag1);
     EvLookup "deadtime"; EvInvoke 1 (CallFlag Examples.flag1)].
Proof.
  exact (evaluate_flag_calls_in_order Examples.registry
           (IsFlag Examples.flag1) None
           [ByName "deadtime"; ByInstance Examples.deadtime;
            ByName "deadtime"] None Examples.world0 _ None _ eq_refl).
Defined.

Lemma metric_calls_instances gm1 gm2 f tb af inj metrics :
  forallb is_instance metrics = true ->
  forall out,
    metric_calls gm1 f tb af inj metrics out
    = metric_calls gm2 f tb af inj metrics out.
Proof.
  induction metrics as [|metric metrics IH]; simpl; [done|].
  destruct metric as [n|m]; simpl; [done|].
  intros Hall out. destruct (call m _) as [r|e]; [|done].
  by rewrite (IH Hall).
Qed.

(** X5.  When every entry of [metrics] is a [Metric] instance the registry
    is never consulted: the call ends the same way, in the same state,
    whatever is registered. *)
Theorem evaluate_flag_instances_only gm1 gm2 flag triggers metrics inj w :
  forallb is_instance metrics = true ->
  evaluate_flag gm1 flag triggers metrics inj w
  = evaluate_flag gm2 flag triggers metrics inj w.
Proof.
  intros Hall. destruct triggers as [l|].
  - destruct (heap w !! l) as [tb|] eqn:Hl.
    + rewrite !(evaluate_flag_present _ _ _ _ _ _ _ Hl).
      destruct (snd (scan (as_flag flag) (rows tb))); [done|].
      by rewrite (metric_calls_instances gm1 gm2 _ _ _ _ _ Hall).
    + by rewrite !(evaluate_flag_dangling _ _ _ _ _ _ Hl).
  - rewrite !evaluate_flag_absent.
    by rewrite (metric_calls_instances gm1 gm2 _ _ _ _ _ Hall).
Qed.

Lemma evaluate_flag_instances_only_witness :
  evaluate_flag Examples.registry (IsFlag Examples.flag1) (Some 0)
    [ByInstance Examples.efficiency; ByInstance Examples.safety] None
    Examples.world0
  = evaluate_flag (fun _ => None) (IsFlag Examples.flag1) (Some 0)
      [ByInstance Examples.efficiency; ByInstance Examples.safety] None
      Examples.world0.
Proof.
  exact (evaluate_flag_instances_only Examples.registry (fun _ => None)
           (IsFlag Examples.flag1) (Some 0)
           [ByInstance Examples.efficiency; ByInstance Examples.safety] None
           Examples.world0 eq_refl).
Defined.

Lemma filter_filter_and {A} (p q : A -> bool) (l : list A) :
  List.filter q (List.filter p l) = List.filter (fun x => p x && q x) l.
Proof.
  induction l as [|x l IH]; simpl; [done|].
  destruct (p x); simpl; [|done].
  destruct (q x); by rewrite IH.
Qed.

(** X6.  Giving the returned [after] table to a second call, with a second
    flag, returns the table of the triggers that neither flag vetoes, in
    their original order, whichever flag comes first; with the same flag
    again, nothing more is vetoed.  The first table of triggers is still as
    it was. *)
Theorem evaluate_flag_chain gm1 gm2 flag1 flag2 l metrics1 metrics2 inj1 inj2
    w tb out1 a1 w1 out2 after2 w2 :
  heap w !! l = Some tb ->
  evaluate_flag gm1 flag1 (Some l) metrics1 inj1 w
  = (Returns (out1, Some a1), w1) ->
  evaluate_flag gm2 flag2 (Some a1) metrics2 inj2 w1
  = (Returns (out2, after2), w2) ->
  let F1 := as_flag flag1 in
  let F2 := as_flag flag2 in
  exists a2 t,
    after2 = Some a2 /\ heap w2 !! a2 = Some t /\
    columns t = columns tb /\
    rows t = List.filter (fun x => negb (vetoed F1 x) && negb (vetoed F2 x))
               (rows tb) /\
    rows t = List.filter (fun x => negb (vetoed F2 x) && negb (vetoed F1 x))
               (rows tb) /\
    (F2 = F1 -> heap w1 !! a1 = Some t) /\
    heap w2 !! l = Some tb.
Proof.
  intros Hl H1 H2 F1 F2.
  destruct (evaluate_flag_after _ _ _ _ _ _ _ _ _ H1)
    as (tb1 & Hl1 & [= ->] & Ha1).
  rewrite Hl in Hl1. injection Hl1 as <-.
  destruct (evaluate_flag_after _ _ _ _ _ _ _ _ _ H2)
    as (tb2 & Hl2 & -> & Ha2).
  rewrite Ha1 in Hl2. injection Hl2 as <-.
  fold F1 in Ha1. fold F1 F2 in Ha2.
  assert (Hrows : rows (filtered F2 (filtered F1 tb))
                  = List.filter
                      (fun x => negb (vetoed F1 x) && negb (vetoed F2 x))
                      (rows tb)).
  { unfold filtered, survivors; simpl. apply filter_filter_and. }
  assert (Hkeep : forall gm flag triggers metrics inj v o v' k t,
            evaluate_flag gm flag triggers metrics inj v = (o, v') ->
            heap v !! k = Some t -> heap v' !! k = Some t).
  { intros gm flag triggers metrics inj v o v' k t He Hk.
    pose proof (evaluate_flag_heap gm flag triggers metrics inj v) as Hh.
    rewrite He in Hh; simpl in Hh. rewrite Hh. by apply lookup_app_l_Some. }
  exists (length (heap w1)), (filtered F2 (filtered F1 tb)).
  split; [done|]. split; [done|]. split; [done|]. split; [exact Hrows|].
  split; [|split].
  - rewrite Hrows. apply filter_ext. intros x. apply andb_comm.
  - intros HF. rewrite Ha1. f_equal.
    unfold filtered in *; simpl in *. f_equal.
    rewrite Hrows, HF. unfold survivors. apply filter_ext.
    intros x. by destruct (vetoed F1 x).
  - eapply Hkeep; [exact H2|]. eapply Hkeep; [exact H1|]. done.
Qed.

Lemma evaluate_flag_chain_witness :
  let F1 := as_flag (IsFlag Examples.flag1) in
  let F2 := as_flag (RawSegments Examples.segments2) in
  let w1 := snd (evaluate_flag Examples.registry (IsFlag Examples.flag1)
                   (Some 0) default_metrics None Examples.world0) in
  let w2 := snd (evaluate_flag Examples.registry
                   (RawSegments Examples.segments2) (Some 3) [] None w1) in
  exists a2 t,
    Some 4 = Some a2 /\ heap w2 !! a2 = Some t /\
    columns t = columns Examples.triggers1 /\
    rows t = List.filter (fun x => negb (vetoed F1 x) && negb (vetoed F2 x))
               (rows Examples.triggers1) /\
    rows t = List.filter (fun x => negb (vetoed F2 x) && negb (vetoed F1 x))
               (rows Examples.triggers1) /\
    (F2 = F1 -> heap w1 !! 3 = Some t) /\
    heap w2 !! 0 = Some Examples.triggers1.
Proof.
  exact (evaluate_flag_chain Examples.registry Examples.registry
           (IsFlag Examples.flag1) (RawSegments Examples.segments2) 0
           default_metrics [] None None Examples.world0 Examples.triggers1
           _ 3 _ _ (Some 4) _ eq_refl eq_refl eq_refl).
Defined.

Lemma survivors_nothing_active flag ts :
  active flag = [] -> survivors flag ts = ts.
Proof.
  intros Ha. unfold survivors.
  induction ts as [|t ts IH]; simpl; [done|].
  unfold vetoed at 1. rewrite Ha.
  destruct (time_of t); simpl; by rewrite IH.
Qed.

(** X7.  A flag without active segments vetoes nothing: the returned
    [after] refers to a new table with the columns and rows of the triggers
    table. *)
Theorem evaluate_flag_nothing_active gm flag l metrics inj w tb out after w' :
  active (as_flag flag) = [] ->
  heap w !! l = Some tb ->
  evaluate_flag gm flag (Some l) metrics inj w = (Returns (out, after), w') ->
  exists a, after = Some a /\ a <> l /\ heap w' !! a = Some tb.
Proof.
  intros Hact Hl He.
  destruct (evaluate_flag_after _ _ _ _ _ _ _ _ _ He) as (tb' & Hl' & -> & Ha).
  rewrite Hl in Hl'. injection Hl' as <-.
  exists (length (heap w)). split; [done|]. split.
  - intros <-. apply lookup_lt_Some in Hl. lia.
  - rewrite Ha. f_equal. unfold filtered.
    rewrite (survivors_nothing_active _ _ Hact). by destruct tb.
Qed.

Lemma evaluate_flag_nothing_active_witness :
  exists a,
    Some 3 = Some a /\ a <> 0 /\
    heap (snd (evaluate_flag Examples.registry (RawSegments []) (Some 0)
                 default_metrics None Examples.world0)) !! a
    = Some Examples.triggers1.
Proof.
  exact (evaluate_flag_nothing_active Examples.registry (RawSegments [])
           0 default_metrics None Examples.world0 Examples.triggers1
           _ (Some 3) _ eq_refl eq_refl eq_refl).
Defined.

(** * Further properties of the veto-flag tab *)

Lemma split_no_sep sep p :
  PyStr.contains_char sep p = false -> PyStr.split sep p = [p].
Proof.
  induction p as [|c p IH]; simpl; [done|].
  intros H. apply orb_false_iff in H as [Hc Hp].
  rewrite Ascii.eqb_sym, Hc. by rewrite (IH Hp).
Qed.

Lemma split_app sep p rest :
  PyStr.contains_char sep p = false ->
  PyStr.split sep (p ++ String sep rest) = p :: PyStr.split sep rest.
Proof.
  induction p as [|c p IH]; simpl.
  - intros _. by rewrite Ascii.eqb_refl.
  - intros H. apply orb_false_iff in H as [Hc Hp].
    rewrite Ascii.eqb_sym, Hc. by rewrite (IH Hp).
Qed.

(** Splitting what was joined gives the parts back. *)
Lemma split_join sep p parts :
  Forall (fun q => PyStr.contains_char sep q = false) (p :: parts) ->
  PyStr.split sep (PyStr.join (String sep EmptyString) (p :: parts))
  = p :: parts.
Proof.
  revert p. induction parts as [|q parts IH]; intros p Hall.
  - simpl. apply split_no_sep. by inversion Hall.
  - inversion Hall as [|? ? Hp Hrest]; subst.
    change (PyStr.join (String sep EmptyString) (p :: q :: parts))
      with (String.append p
              (String sep (PyStr.join (String sep EmptyString) (q :: parts)))).
    rewrite (split_app _ _ _ Hp). by rewrite (IH q Hrest).
Qed.

Section InitMore.

Variable Plot : Type.
Variable Padding : Type.
Variable ParentArgs : Type.
Variable parent_init :
  flag_entry -> list string -> ParentArgs -> outcome (list Plot).
Variable get_channel : string -> outcome Channel.
Variable format_padding : list flag_entry -> pyvalue -> outcome Padding.
Variable configure_plots :
  FlagTab.t Plot Padding -> string -> outcome (list nat * list Plot).

(** X13.  The combined name of a tab that has been built can be taken
    apart again: when no flag name contains the operator, splitting the
    combined name at the operator gives back the flag names, in order. *)
Theorem FlagTab_metaflag_split name n ns metrics channel etg format
    (intersection : bool) labels segmentfile minseglength padding states
    kwargs tab :
  FlagTab.__init__ Plot Padding ParentArgs parent_init get_channel
    format_padding configure_plots name (map FlagName (n :: ns)) metrics
    channel etg format intersection labels segmentfile minseglength padding
    states kwargs
  = Returns tab ->
  let op := if intersection then "&"%char else "|"%char in
  Forall (fun q => PyStr.contains_char op q = false) (n :: ns) ->
  PyStr.split op (FlagTab.metaflag tab) = n :: ns.
Proof.
  intros Hinit op Hall.
  destruct (init_returns _ _ _ _ _ _ _ _ _ _ _ _ _ _ _ _ _ _ _ _ _ Hinit)
    as (_ & _ & Hm & _).
  assert (Hnames : forall l, map py_str (map FlagName l) = l).
  { induction l as [|x l IH]; simpl; [done|]. by rewrite IH. }
  change (tested_flags name (map FlagName (n :: ns)))
    with (map FlagName (n :: ns)) in Hm.
  rewrite Hm, Hnames. subst op.
  destruct intersection; by apply split_join.
Qed.

(** X17.  A tab cannot be built without a generator unless plots are
    given: when the parent constructor leaves no plots and the channel and
    the padding are accepted, a construction with [etg] absent raises
    [AttributeError] from [init_plots]. *)
Theorem FlagTab_no_generator name flags metrics channel format intersection
    labels segmentfile minseglength padding states kwargs pad :
  parent_init (display_name name flags) states kwargs = Returns [] ->
  (forall c, channel = Some c -> c <> EmptyString ->
             exists ch, get_channel c = Returns ch) ->
  format_padding (tested_flags name flags) padding = Returns pad ->
  FlagTab.__init__ Plot Padding ParentArgs parent_init get_channel
    format_padding configure_plots name flags metrics channel None format
    intersection labels segmentfile minseglength padding states kwargs
  = Raises (AttributeError "'NoneType' object has no attribute 'replace'").
Proof.
  intros Hp Hc Hpad.
  unfold FlagTab.__init__, FlagTab.init_plots, obind.
  assert (Hshape :
            (if (length flags =? 0)%nat
             then ([name],
                   match name with
                   | FlagFile n _ => FlagName n
                   | FlagName _ => name
                   end)
             else (flags, name))
            = (tested_flags name flags, display_name name flags)).
  { destruct flags; simpl; [|done]. by destruct name. }
  rewrite Hshape, Hp.
  destruct channel as [[|a c]|].
  - by rewrite Hpad.
  - destruct (Hc (String a c) eq_refl) as [ch ->]; [done|]. by rewrite Hpad.
  - by rewrite Hpad.
Qed.

End InitMore.

Lemma FlagTab_metaflag_split_witness :
  exists tab,
    FlagTab.__init__ string pyvalue (list string) Examples.parent_keeps
      Examples.channel_named Examples.padding_kept Examples.segment_plot
      (FlagName "combined")
      (map FlagName ["H1:DMT-A:1"; "H1:DMT-B:1"; "L1:DMT-C:2"]) [] None
      (Some "omicron") None false None None 0%float Examples.no_padding
      ["All"] []
    = Returns tab /\
    FlagTab.metaflag tab = "H1:DMT-A:1|H1:DMT-B:1|L1:DMT-C:2" /\
    PyStr.split "|"%char (FlagTab.metaflag tab)
    = ["H1:DMT-A:1"; "H1:DMT-B:1"; "L1:DMT-C:2"].
Proof.
  eexists. split; [reflexivity|]. split; [reflexivity|].
  apply (FlagTab_metaflag_split string pyvalue (list string)
           Examples.parent_keeps Examples.channel_named
           Examples.padding_kept Examples.segment_plot
           (FlagName "combined") "H1:DMT-A:1" ["H1:DMT-B:1"; "L1:DMT-C:2"]
           [] None (Some "omicron") None false None None 0%float
           Examples.no_padding ["All"] [] _ eq_refl).
  repeat constructor.
Defined.

Lemma FlagTab_no_generator_witness :
  FlagTab.__init__ string pyvalue (list string) Examples.parent_keeps
    Examples.channel_named Examples.padding_kept Examples.segment_plot
    (FlagName "H1:DMT-A:1") [] [] (Some "H1:STRAIN") None None false None
    None 0%float Examples.no_padding ["All"] []
  = Raises (AttributeError "'NoneType' object has no attribute 'replace'").
Proof.
  apply (FlagTab_no_generator string pyvalue (list string)
           Examples.parent_keeps Examples.channel_named
           Examples.padding_kept Examples.segment_plot
           (FlagName "H1:DMT-A:1") [] [] (Some "H1:STRAIN") None false None
           None 0%float Examples.no_padding ["All"] [] Examples.no_padding
           eq_refl).
  - intros c _ _. by eexists.
  - reflexivity.
Defined.

Section FromIniMore.

Variable get_metric : string -> option Metric.
Variable get_channel : string -> Channel.
Variable eval : string -> outcome pyvalue.

Lemma config_get_of_section config section option opts :
  assoc section config = Some opts ->
  config_get config section option =
    match assoc option opts with
    | Some v => Returns v
    | None => Raises (NoOptionError option section)
    end.
Proof. unfold config_get. by intros ->. Qed.

(** X8.  [from_ini] reads the [flags] and [metrics] options whether or not
    the caller passes these keywords: without the section, without [flags],
    or (with a readable [padding], if any) without [metrics], it raises. *)
Theorem from_ini_required_options config section kw :
  (assoc section config = None ->
   FlagTab.from_ini get_metric get_channel eval config section kw
   = Raises (NoSectionError section)) /\
  (forall opts,
     assoc section config = Some opts ->
     assoc "flags" opts = None ->
     FlagTab.from_ini get_metric get_channel eval config section kw
     = Raises (NoOptionError "flags" section)) /\
  (forall opts,
     assoc section config = Some opts ->
     is_Some (assoc "flags" opts) ->
     (forall text, assoc "padding" opts = Some text ->
                   exists v, eval text = Returns v) ->
     assoc "metrics" opts = None ->
     FlagTab.from_ini get_metric get_channel eval config section kw
     = Raises (NoOptionError "metrics" section)).
Proof.
  split; [|split].
  - intros Hs. unfold FlagTab.from_ini, FlagTab.read_options, config_get.
    by rewrite Hs.
  - intros opts Hs Hf.
    unfold FlagTab.from_ini, FlagTab.read_options.
    rewrite (config_get_of_section _ _ _ _ Hs), Hf. done.
  - intros opts Hs [tf Hf] Hpad Hm.
    unfold FlagTab.from_ini, FlagTab.read_options.
    rewrite !(config_get_of_section _ _ _ _ Hs), Hf, Hm. simpl.
    destruct (assoc "segmentfile" opts); simpl;
      (destruct (assoc "padding" opts) as [tp|]; simpl;
       [destruct (Hpad tp eq_refl) as [v ->]; simpl|]; done).
Qed.

Lemma from_ini_inv config section kw kw2 :
  FlagTab.from_ini get_metric get_channel eval config section kw
  = Returns kw2 ->
  exists kw1 flags,
    FlagTab.read_options get_metric get_channel eval config section kw
    = Returns kw1 /\
    FlagTab.kw_flags kw1 = Some flags /\
    FlagTab.read_combine config section flags kw1 = Returns kw2.
Proof.
  unfold FlagTab.from_ini.
  destruct (FlagTab.read_options _ _ _ config section kw) as [kw1|e];
    simpl; [|done].
  destruct (FlagTab.kw_flags kw1) as [flags|] eqn:Hf; [|done].
  intros H. by exists kw1, flags.
Qed.

(** The flag combine touches the [intersection] keyword only, and only
    when the caller has not given it. *)
Lemma read_combine_keys config section flags kw1 kw2 :
  FlagTab.read_combine config section flags kw1 = Returns kw2 ->
  FlagTab.kw_flags kw2 = FlagTab.kw_flags kw1 /\
  FlagTab.kw_segmentfile kw2 = FlagTab.kw_segmentfile kw1 /\
  FlagTab.kw_padding kw2 = FlagTab.kw_padding kw1 /\
  FlagTab.kw_metrics kw2 = FlagTab.kw_metrics kw1 /\
  FlagTab.kw_labels kw2 = FlagTab.kw_labels kw1 /\
  FlagTab.kw_channel kw2 = FlagTab.kw_channel kw1 /\
  FlagTab.kw_etg kw2 = FlagTab.kw_etg kw1 /\
  FlagTab.kw_format kw2 = FlagTab.kw_format kw1 /\
  (forall b, FlagTab.kw_intersection kw1 = Some b ->
             FlagTab.kw_intersection kw2 = Some b).
Proof.
  unfold FlagTab.read_combine, FlagTab.absent.
  destruct (1 <? length flags)%nat; simpl.
  - destruct (FlagTab.kw_intersection kw1) as [b|] eqn:Hi; simpl.
    + intros [= <-]. repeat split; try done; intros ? ?; congruence.
    + destruct (config_get config section "combine") as [c|[]]; try done.
      * destruct (String.eqb (PyStr.lower c) "intersection"); simpl.
        -- intros [= <-]. repeat split; try done; intros ? ?; congruence.
        -- destruct (String.eqb (PyStr.lower c) "union"); simpl; [|done].
           intros [= <-]. repeat split; try done; intros ? ?; congruence.
      * intros [= <-]. repeat split; try done; intros ? ?; congruence.
  - intros [= <-]. repeat split; try done; intros ? ?; congruence.
Qed.

(** Every keyword after the options have been read: the caller's value
    when there is one, else what the section says. *)
Lemma read_options_spec config section opts kw kw1 :
  assoc section config = Some opts ->
  FlagTab.read_options get_metric get_channel eval config section kw
  = Returns kw1 ->
  (exists text,
     assoc "flags" opts = Some text /\
     FlagTab.kw_flags kw1 =
       Some match FlagTab.kw_flags kw with
            | Some v => v
            | None => map FlagName (FlagTab.csv text)
            end) /\
  FlagTab.kw_segmentfile kw1 =
    match FlagTab.kw_segmentfile kw with
    | Some v => Some v
    | None => assoc "segmentfile" opts
    end /\
  FlagTab.kw_padding kw1 =
    match FlagTab.kw_padding kw with
    | Some v => Some v
    | None =>
        match assoc "padding" opts with
        | Some text =>
            match eval text with
            | Returns v => Some [v]
            | Raises _ => None
            end
        | None => None
        end
    end /\
  (exists text ms,
     assoc "metrics" opts = Some text /\
     omap_list (FlagTab.lookup_metric get_metric) (FlagTab.csv text)
     = Returns ms /\
     FlagTab.kw_metrics kw1 =
       Some match FlagTab.kw_metrics kw with
            | Some v => v
            | None => ms
            end) /\
  FlagTab.kw_labels kw1 =
    match FlagTab.kw_labels kw with
    | Some v => Some v
    | None => FlagTab.csv <$> assoc "labels" opts
    end /\
  FlagTab.kw_channel kw1 =
    match FlagTab.kw_channel kw with
    | Some v => Some v
    | None => get_channel <$> assoc "event-channel" opts
    end /\
  FlagTab.kw_etg kw1 =
    match FlagTab.kw_etg kw with
    | Some v => Some v
    | None =>
        match assoc "event-channel" opts with
        | Some _ => assoc "event-generator" opts
        | None => None
        end
    end /\
  FlagTab.kw_format kw1 =
    match FlagTab.kw_format kw with
    | Some v => Some v
    | None =>
        match assoc "event-channel" opts with
        | Some _ => assoc "event-format" opts
        | None => None
        end
    end /\
  FlagTab.kw_intersection kw1 = FlagTab.kw_intersection kw /\
  (is_Some (assoc "event-channel" opts) ->
   is_Some (assoc "event-generator" opts)).
Proof.
  intros Hs H.
  unfold FlagTab.read_options, obind, except_NoOptionError in H.
  rewrite !(config_get_of_section _ _ _ _ Hs) in H.
  repeat match type of H with
         | context [assoc ?o opts] =>
             destruct (assoc o opts) eqn:?; simpl in H; try discriminate
         | context [eval ?t] =>
             destruct (eval t) as [?|[]] eqn:?; simpl in H; try discriminate
         | context [omap_list ?f ?l] =>
             destruct (omap_list f l) eqn:?; simpl in H; try discriminate
         end;
    inversion H; subst; clear H; simpl;
    (split; [eexists; split; [reflexivity|];
             by destruct (FlagTab.kw_flags kw)|]);
    (split; [by destruct (FlagTab.kw_segmentfile kw)|]);
    (split; [by destruct (FlagTab.kw_padding kw)|]);
    (split; [eexists _, _; split; [reflexivity|]; split; [eassumption|];
             by destruct (FlagTab.kw_metrics kw)|]);
    (split; [by destruct (FlagTab.kw_labels kw)|]);
    (split; [by destruct (FlagTab.kw_channel kw)|]);
    (split; [by destruct (FlagTab.kw_etg kw)|]);
    (split; [by destruct (FlagTab.kw_format kw)|]);
    (split; [done|]); try (intros _; by eexists); by intros [? [=]].
Qed.

Lemma from_ini_section_of_read config section kw kw1 :
  FlagTab.read_options get_metric get_channel eval config section kw
  = Returns kw1 ->
  exists opts, assoc section config = Some opts.
Proof.
  unfold FlagTab.read_options.
  destruct (config_get config section "flags") as [text|e] eqn:Hg; [|done].
  unfold config_get in Hg.
  destruct (assoc section config) as [opts|]; [|done]. by exists opts.
Qed.

Lemma from_ini_section config section kw kw2 :
  FlagTab.from_ini get_metric get_channel eval config section kw
  = Returns kw2 ->
  exists opts, assoc section config = Some opts.
Proof.
  intros H. destruct (from_ini_inv _ _ _ _ H) as (kw1 & flags & Hr & _).
  unfold FlagTab.read_options in Hr.
  destruct (config_get config section "flags") as [text|e] eqn:Hg; [|done].
  unfold config_get in Hg.
  destruct (assoc section config) as [opts|]; [|done]. by exists opts.
Qed.

(** X9.  [from_ini] never replaces a keyword the caller has given: whatever
    the section says, each of the nine keywords it may set comes back with
    the caller's value. *)
Theorem from_ini_keeps_keywords config section kw kw2 :
  FlagTab.from_ini get_metric get_channel eval config section kw
  = Returns kw2 ->
  (forall v, FlagTab.kw_flags kw = Some v -> FlagTab.kw_flags kw2 = Some v) /\
  (forall v, FlagTab.kw_segmentfile kw = Some v ->
             FlagTab.kw_segmentfile kw2 = Some v) /\
  (forall v, FlagTab.kw_padding kw = Some v ->
             FlagTab.kw_padding kw2 = Some v) /\
  (forall v, FlagTab.kw_metrics kw = Some v ->
             FlagTab.kw_metrics kw2 = Some v) /\
  (forall v, FlagTab.kw_labels kw = Some v ->
             FlagTab.kw_labels kw2 = Some v) /\
  (forall v, FlagTab.kw_channel kw = Some v ->
             FlagTab.kw_channel kw2 = Some v) /\
  (forall v, FlagTab.kw_etg kw = Some v -> FlagTab.kw_etg kw2 = Some v) /\
  (forall v, FlagTab.kw_format kw = Some v ->
             FlagTab.kw_format kw2 = Some v) /\
  (forall v, FlagTab.kw_intersection kw = Some v ->
             FlagTab.kw_intersection kw2 = Some v).
Proof.
  intros H. destruct (from_ini_section _ _ _ _ H) as [opts Hs].
  destruct (from_ini_inv _ _ _ _ H) as (kw1 & flags & Hr & _ & Hc).
  destruct (read_options_spec _ _ _ _ _ Hs Hr)
    as ((tf & _ & E1) & E2 & E3 & (tm & ms & _ & _ & E4) & E5 & E6 & E7 & E8
        & E9 & _).
  destruct (read_combine_keys _ _ _ _ _ Hc)
    as (-> & -> & -> & -> & -> & -> & -> & -> & K9).
  rewrite E1, E2, E3, E4, E5, E6, E7, E8.
  repeat split; try (by intros v ->).
  intros v Hv. apply K9. by rewrite E9.
Qed.

(** X10.  A keyword the caller has not given is taken from the section:
    [flags] and [labels] as the stripped pieces between commas, [metrics]
    as the registered metrics of such pieces, [segmentfile] as it is, the
    channel as [get_channel] of [event-channel]; [etg] and [format] are read
    from [event-generator] and [event-format] only when [event-channel] is
    there; an option that is missing leaves its keyword absent. *)
Theorem from_ini_fills_keywords config section opts kw kw2 :
  assoc section config = Some opts ->
  FlagTab.from_ini get_metric get_channel eval config section kw
  = Returns kw2 ->
  (FlagTab.kw_flags kw = None ->
   exists text,
     assoc "flags" opts = Some text /\
     FlagTab.kw_flags kw2 = Some (map FlagName (FlagTab.csv text))) /\
  (FlagTab.kw_segmentfile kw = None ->
   FlagTab.kw_segmentfile kw2 = assoc "segmentfile" opts) /\
  (FlagTab.kw_metrics kw = None ->
   exists text ms,
     assoc "metrics" opts = Some text /\
     omap_list (FlagTab.lookup_metric get_metric) (FlagTab.csv text)
     = Returns ms /\
     FlagTab.kw_metrics kw2 = Some ms) /\
  (FlagTab.kw_labels kw = None ->
   FlagTab.kw_labels kw2 = FlagTab.csv <$> assoc "labels" opts) /\
  (FlagTab.kw_channel kw = None ->
   FlagTab.kw_channel kw2 = get_channel <$> assoc "event-channel" opts) /\
  (FlagTab.kw_etg kw = None ->
   FlagTab.kw_etg kw2 =
     match assoc "event-channel" opts with
     | Some _ => assoc "event-generator" opts
     | None => None
     end) /\
  (FlagTab.kw_format kw = None ->
   FlagTab.kw_format kw2 =
     match assoc "event-channel" opts with
     | Some _ => assoc "event-format" opts
     | None => None
     end).
Proof.
  intros Hs H.
  destruct (from_ini_inv _ _ _ _ H) as (kw1 & flags & Hr & _ & Hc).
  destruct (read_options_spec _ _ _ _ _ Hs Hr)
    as ((tf & Hf & E1) & E2 & _ & (tm & ms & Hm & Hms & E4) & E5 & E6 & E7
        & E8 & _ & _).
  destruct (read_combine_keys _ _ _ _ _ Hc)
    as (-> & -> & _ & -> & -> & -> & -> & -> & _).
  rewrite E1, E2, E4, E5, E6, E7, E8.
  repeat split; try (by intros ->).
  - intros ->. by exists tf.
  - intros ->. by exists tm, ms.
Qed.

(** X11.  A section that names an event channel must name its generator:
    when the options up to there are read without error, [event-channel]
    without [event-generator] makes [from_ini] raise, although the
    generator is never asked for without the channel. *)
Theorem from_ini_needs_generator config section opts kw tm ms c :
  assoc section config = Some opts ->
  is_Some (assoc "flags" opts) ->
  (forall text, assoc "padding" opts = Some text ->
                exists v, eval text = Returns v) ->
  assoc "metrics" opts = Some tm ->
  omap_list (FlagTab.lookup_metric get_metric) (FlagTab.csv tm) = Returns ms ->
  assoc "event-channel" opts = Some c ->
  assoc "event-generator" opts = None ->
  FlagTab.from_ini get_metric get_channel eval config section kw
  = Raises (NoOptionError "event-generator" section).
Proof.
  intros Hs [tf Hf] Hpad Hm Hms Hc Hg.
  unfold FlagTab.from_ini, FlagTab.read_options.
  rewrite !(config_get_of_section _ _ _ _ Hs), Hf, Hm, Hc, Hg. simpl.
  destruct (assoc "segmentfile" opts); simpl;
    (destruct (assoc "padding" opts) as [tp|]; simpl;
     [destruct (Hpad tp eq_refl) as [v ->]; simpl|];
     rewrite Hms; simpl; by destruct (assoc "labels" opts)).
Qed.

(** X12.  With at most one flag, or with [intersection] given by the
    caller, the [combine] option is not looked at: whatever it says, no
    error is raised for it and the keywords are those read before. *)
Theorem from_ini_combine_ignored config section kw kw1 flags :
  FlagTab.read_options get_metric get_channel eval config section kw
  = Returns kw1 ->
  FlagTab.kw_flags kw1 = Some flags ->
  length flags <= 1 \/ is_Some (FlagTab.kw_intersection kw) ->
  FlagTab.from_ini get_metric get_channel eval config section kw
  = Returns kw1.
Proof.
  intros Hr Hf Hor.
  unfold FlagTab.from_ini. rewrite Hr; simpl. rewrite Hf.
  unfold FlagTab.read_combine.
  destruct Hor as [Hlen|[b Hb]].
  - assert (Hlt : (1 <? length flags)%nat = false) by by apply Nat.ltb_ge.
    by rewrite Hlt.
  - destruct (from_ini_section_of_read _ _ _ _ Hr) as [opts Hs].
    destruct (read_options_spec _ _ _ _ _ Hs Hr)
      as (_ & _ & _ & _ & _ & _ & _ & _ & E9 & _).
    rewrite E9, Hb. simpl. by rewrite andb_false_r.
Qed.

(** X14.  The [flags] option is cut at every comma and each piece loses
    the blanks and newlines around it: a section whose [flags] are pieces
    joined by commas gives, for a caller who passed no flags, one flag name
    per piece. *)
Theorem from_ini_flags_option config section opts kw kw2 p parts :
  assoc section config = Some opts ->
  assoc "flags" opts = Some (PyStr.join "," (p :: parts)) ->
  Forall (fun q => PyStr.contains_char ","%char q = false) (p :: parts) ->
  FlagTab.kw_flags kw = None ->
  FlagTab.from_ini get_metric get_channel eval config section kw
  = Returns kw2 ->
  FlagTab.kw_flags kw2 =
    Some (map FlagName
            (map (PyStr.strip PyStr.newline_space) (p :: parts))).
Proof.
  intros Hs Hf Hall Hk H.
  destruct (from_ini_inv _ _ _ _ H) as (kw1 & flags & Hr & _ & Hc).
  destruct (read_options_spec _ _ _ _ _ Hs Hr) as ((tf & Hf' & E1) & _).
  destruct (read_combine_keys _ _ _ _ _ Hc) as (-> & _).
  assert (Htf : tf = PyStr.join "," (p :: parts)) by congruence.
  rewrite E1, Hk, Htf. unfold FlagTab.csv.
  by rewrite (split_join ","%char p parts Hall).
Qed.

Lemma omap_list_stops {A B} (f : A -> outcome B) pre x post e :
  Forall (fun a => exists b, f a = Returns b) pre ->
  f x = Raises e ->
  omap_list f (pre ++ x :: post) = Raises e.
Proof.
  induction pre as [|a pre IH]; simpl; intros Hpre Hx.
  - by rewrite Hx.
  - inversion Hpre as [|? ? [b Hb] Hrest]; subst.
    rewrite Hb; simpl. by rewrite (IH Hrest Hx).
Qed.

(** X16.  A section that names a metric nobody registered is refused, also
    when the caller passes the metrics: with the options before it read
    without error, [from_ini] raises for the first piece of the [metrics]
    option, stripped, that has no registry entry. *)
Theorem from_ini_unknown_metric config section opts kw pre q post :
  assoc section config = Some opts ->
  is_Some (assoc "flags" opts) ->
  (forall text, assoc "padding" opts = Some text ->
                exists v, eval text = Returns v) ->
  assoc "metrics" opts = Some (PyStr.join "," (pre ++ q :: post)) ->
  Forall (fun x => PyStr.contains_char ","%char x = false)
    (pre ++ q :: post) ->
  Forall (fun x => is_Some (get_metric (PyStr.strip PyStr.newline_space x)))
    pre ->
  get_metric (PyStr.strip PyStr.newline_space q) = None ->
  FlagTab.from_ini get_metric get_channel eval config section kw
  = Raises (UnknownMetricError (PyStr.strip PyStr.newline_space q)).
Proof.
  intros Hs [tf Hf] Hpad Hm Hfree Hpre Hq.
  assert (Hms : omap_list (FlagTab.lookup_metric get_metric)
                  (FlagTab.csv (PyStr.join "," (pre ++ q :: post)))
                = Raises (UnknownMetricError
                            (PyStr.strip PyStr.newline_space q))).
  { unfold FlagTab.csv.
    assert (Hsplit : PyStr.split ","%char (PyStr.join "," (pre ++ q :: post))
                     = pre ++ q :: post).
    { destruct pre as [|p pre']; simpl app in *; by apply split_join. }
    rewrite Hsplit, map_app. simpl map.
    apply omap_list_stops.
    - apply Forall_map. eapply Forall_impl; [exact Hpre|].
      intros x [m Hx]. exists (ByInstance m).
      unfold FlagTab.lookup_metric. by rewrite Hx.
    - unfold FlagTab.lookup_metric. by rewrite Hq. }
  unfold FlagTab.from_ini, FlagTab.read_options.
  rewrite !(config_get_of_section _ _ _ _ Hs), Hf, Hm. simpl.
  destruct (assoc "segmentfile" opts); simpl;
    (destruct (assoc "padding" opts) as [tp|]; simpl;
     [destruct (Hpad tp eq_refl) as [v ->]; simpl|];
     by rewrite Hms).
Qed.

End FromIniMore.

Lemma from_ini_required_options_witness :
  FlagTab.from_ini Examples.registry mkChannel Examples.no_eval
    [("tab-veto", [("flags", "H1:DMT-A:1")])] "tab-veto" Examples.some_kwargs
  = Raises (NoOptionError "metrics" "tab-veto").
Proof.
  apply (proj2 (proj2 (from_ini_required_options Examples.registry mkChannel
                         Examples.no_eval
                         [("tab-veto", [("flags", "H1:DMT-A:1")])] "tab-veto"
                         Examples.some_kwargs))
           [("flags", "H1:DMT-A:1")] eq_refl).
  - by eexists.
  - intros text Ht. discriminate Ht.
  - reflexivity.
Defined.

Lemma from_ini_keeps_keywords_witness :
  let kw2 :=
    Examples.returned
      (FlagTab.from_ini Examples.registry mkChannel Examples.no_eval
         Examples.config4 "tab-veto" Examples.some_kwargs)
      Examples.no_kwargs in
  FlagTab.kw_flags kw2 = Some [FlagFile "H1:DMT-X:1" "x.xml"] /\
  FlagTab.kw_labels kw2 = Some ["X"] /\
  FlagTab.kw_etg kw2 = Some "kleinewelle" /\
  FlagTab.kw_intersection kw2 = Some true.
Proof.
  intros kw2.
  destruct (from_ini_keeps_keywords Examples.registry mkChannel
              Examples.no_eval Examples.config4 "tab-veto"
              Examples.some_kwargs kw2 eq_refl)
    as (K1 & _ & _ & _ & K5 & _ & K7 & _ & K9).
  split; [exact (K1 _ eq_refl)|]. split; [exact (K5 _ eq_refl)|].
  split; [exact (K7 _ eq_refl)|exact (K9 _ eq_refl)].
Defined.

Lemma from_ini_fills_keywords_witness :
  let kw2 :=
    Examples.returned
      (FlagTab.from_ini Examples.registry mkChannel Examples.no_eval
         Examples.config4 "tab-veto" Examples.no_kwargs)
      Examples.no_kwargs in
  FlagTab.kw_segmentfile kw2 = Some "segments.xml" /\
  FlagTab.kw_labels kw2 = Some ["A"] /\
  FlagTab.kw_channel kw2 = Some (mkChannel "H1:GDS-CALIB_STRAIN") /\
  FlagTab.kw_etg kw2 = Some "omicron" /\
  FlagTab.kw_format kw2 = None.
Proof.
  intros kw2.
  destruct (from_ini_fills_keywords Examples.registry mkChannel
              Examples.no_eval Examples.config4 "tab-veto" _
              Examples.no_kwargs kw2 eq_refl eq_refl)
    as (_ & K2 & _ & K4 & K5 & K6 & K7).
  split; [exact (K2 eq_refl)|]. split; [exact (K4 eq_refl)|].
  split; [exact (K5 eq_refl)|]. split; [exact (K6 eq_refl)|exact (K7 eq_refl)].
Defined.

Lemma from_ini_needs_generator_witness :
  FlagTab.from_ini Examples.registry mkChannel Examples.no_eval
    Examples.config3 "tab-veto" Examples.no_kwargs
  = Raises (NoOptionError "event-generator" "tab-veto").
Proof.
  apply (from_ini_needs_generator Examples.registry mkChannel
           Examples.no_eval Examples.config3 "tab-veto" _ Examples.no_kwargs
           "deadtime" [ByInstance Examples.deadtime] "H1:GDS-CALIB_STRAIN"
           eq_refl).
  - by eexists.
  - intros text Ht. discriminate Ht.
  - reflexivity.
  - reflexivity.
  - reflexivity.
  - reflexivity.
Defined.

Lemma from_ini_combine_ignored_witness :
  FlagTab.from_ini Examples.registry mkChannel Examples.no_eval
    Examples.config4 "tab-veto" Examples.no_kwargs
  = Returns
      (Examples.returned
         (FlagTab.read_options Examples.registry mkChannel Examples.no_eval
            Examples.config4 "tab-veto" Examples.no_kwargs)
         Examples.no_kwargs).
Proof.
  exact (from_ini_combine_ignored Examples.registry mkChannel
           Examples.no_eval Examples.config4 "tab-veto" Examples.no_kwargs
           _ [FlagName "H1:DMT-A:1"] eq_refl eq_refl (or_introl (le_n 1))).
Defined.

Lemma from_ini_flags_option_witness :
  FlagTab.kw_flags
    (Examples.returned
       (FlagTab.from_ini Examples.registry mkChannel Examples.no_eval
          Examples.config1 "tab-veto" Examples.no_kwargs)
       Examples.no_kwargs)
  = Some (map FlagName
            (map (PyStr.strip PyStr.newline_space)
               ["H1:DMT-A:1"; " H1:DMT-B:1"])).
Proof.
  apply (from_ini_flags_option Examples.registry mkChannel Examples.no_eval
           Examples.config1 "tab-veto" _ Examples.no_kwargs _
           "H1:DMT-A:1" [" H1:DMT-B:1"] eq_refl eq_refl).
  - repeat constructor.
  - reflexivity.
  - reflexivity.
Defined.

Lemma from_ini_unknown_metric_witness :
  FlagTab.from_ini Examples.registry mkChannel Examples.no_eval
    [("tab-veto", [("flags", "H1:DMT-A:1");
                   ("metrics", "deadtime, bogus ,efficiency")])]
    "tab-veto" Examples.some_kwargs
  = Raises (UnknownMetricError "bogus").
Proof.
  apply (from_ini_unknown_metric Examples.registry mkChannel Examples.no_eval
           [("tab-veto", [("flags", "H1:DMT-A:1");
                          ("metrics", "deadtime, bogus ,efficiency")])]
           "tab-veto" _ Examples.some_kwargs ["deadtime"] " bogus "
           ["efficiency"] eq_refl).
  - by eexists.
  - intros text Ht. discriminate Ht.
  - reflexivity.
  - repeat constructor.
  - repeat constructor. by eexists.
  - reflexivity.
Defined.

Lemma filter_weaker {A} (p q : A -> bool) (l : list A) :
  (forall x, q x = true -> p x = true) ->
  List.filter q (List.filter p l) = List.filter q l.
Proof.
  intros Hqp. rewrite filter_filter_and. apply filter_ext.
  intros x. destruct (q x) eqn:Hq; [|by rewrite andb_false_r].
  by rewrite (Hqp x Hq).
Qed.

(** X15.  A flag that covers every time another flag covers vetoes at least
    as much: on the same table of triggers, its [after] holds exactly the
    rows of the other flag's [after] that it does not veto, and so is a
    part of it in the same order. *)
Theorem evaluate_flag_larger_flag gm1 gm2 flagA flagB l metrics1 metrics2
    inj1 inj2 w tb outA afterA wA outB afterB wB :
  heap w !! l = Some tb ->
  (forall t, contains (active (as_flag flagA)) t = true ->
             contains (active (as_flag flagB)) t = true) ->
  evaluate_flag gm1 flagA (Some l) metrics1 inj1 w
  = (Returns (outA, afterA), wA) ->
  evaluate_flag gm2 flagB (Some l) metrics2 inj2 w
  = (Returns (outB, afterB), wB) ->
  exists a b ta tb',
    afterA = Some a /\ afterB = Some b /\
    heap wA !! a = Some ta /\ heap wB !! b = Some tb' /\
    rows tb' = List.filter (fun x => negb (vetoed (as_flag flagB) x))
                 (rows ta) /\
    sublist (rows tb') (rows ta).
Proof.
  intros Hl Hcover HA HB.
  destruct (evaluate_flag_after _ _ _ _ _ _ _ _ _ HA) as (t1 & Hl1 & -> & Ha).
  destruct (evaluate_flag_after _ _ _ _ _ _ _ _ _ HB) as (t2 & Hl2 & -> & Hb).
  rewrite Hl in Hl1, Hl2. injection Hl1 as <-. injection Hl2 as <-.
  assert (Hrows : rows (filtered (as_flag flagB) tb)
                  = List.filter (fun x => negb (vetoed (as_flag flagB) x))
                      (rows (filtered (as_flag flagA) tb))).
  { unfold filtered, survivors; simpl. symmetry. apply filter_weaker.
    intros x Hx. apply negb_true_iff in Hx. apply negb_true_iff.
    unfold vetoed in *. destruct (time_of x) as [v|]; [|done].
    destruct (contains (active (as_flag flagA)) v) eqn:E; [|done].
    by rewrite (Hcover v E) in Hx. }
  eexists _, _, _, _. split; [done|]. split; [done|].
  split; [exact Ha|]. split; [exact Hb|]. split; [exact Hrows|].
  rewrite Hrows. apply filter_sublist.
Qed.

Lemma evaluate_flag_larger_flag_witness :
  exists a b ta tb',
    Some 3 = Some a /\ Some 3 = Some b /\
    heap (snd (evaluate_flag Examples.registry (IsFlag Examples.flag1)
                 (Some 0) [] None Examples.world0)) !! a = Some ta /\
    heap (snd (evaluate_flag Examples.registry
                 (RawSegments [(10%float, 20%float); (20%float, 30%float)])
                 (Some 0) [] None Examples.world0)) !! b = Some tb' /\
    rows tb' = List.filter
                 (fun x => negb (vetoed
                                   (as_flag (RawSegments
                                               [(10%float, 20%float);
                                                (20%float, 30%float)])) x))
                 (rows ta) /\
    sublist (rows tb') (rows ta).
Proof.
  apply (evaluate_flag_larger_flag Examples.registry Examples.registry
           (IsFlag Examples.flag1) (RawSegments [(10%float, 20%float); (20%float, 30%float)]) 0
           [] [] None None Examples.world0 Examples.triggers1
           [] (Some 3) _ [] (Some 3) _ eq_refl).
  - intros t. simpl. rewrite orb_false_r. by intros ->.
  - reflexivity.
  - reflexivity.
Defined.
